(** * The quiz engine of app.js

    A shallow embedding of the classes [Question] and [QuizEngine] of
    [src/app.js], and the properties of the engine's state machine:
    navigation, answer recording, the countdown, scoring and the snapshot
    used to resume a session.

    Conventions of the embedding.
    - Integer-valued JS numbers (indices, seconds, counters) are [Z].
    - The numbers the engine divides and compares ([percent],
      [passThreshold]) are IEEE binary64 values, Rocq's primitive [float],
      which is what a JS number is.
    - The plain object [answers] is the finite map of its own properties,
      from property names to option indices.  It inherits from
      [Object.prototype]: [select] writes through [Js.set] and
      [getSelected] reads through [Js.get], which follow the prototype;
      where the code only compares the value read with a number, the
      lookup of the own property is used, an inherited value never being a
      number.
    - Arithmetic on [Z] is the arithmetic of the code for integers of
      magnitude up to [Js.max_exact = 2^53]; beyond, a JS number rounds.
      A theorem that uses the value of [remainingSec - 1] assumes that
      range.
    - A method that mutates [this] is a function from the engine to the
      engine after the call; a method that also returns a value returns a
      pair.
    - A value read back from storage may lack any of its fields, so every
      field of a snapshot is optional.
    - One engine is followed at a time and a snapshot is a value: the
      application writes it to storage as JSON text and parses it back. *)

From Stdlib Require Import ZArith Bool Floats Ascii.
From stdpp Require Import gmap strings list pretty.

Local Open Scope Z_scope.

(** ** JS numbers *)

Module Js.

(** The double nearest to an integer (exact up to 2^53): the value a
    counter or an array length has as a JS number. *)
Definition of_Z (z : Z) : float :=
  SF2Prim (binary_normalize prec emax z 0 false).

(** Truthiness of a number: [0], [-0] and [NaN] are falsy. *)
Definition truthy (x : float) : bool :=
  negb (PrimFloat.eqb x 0%float || PrimFloat.is_nan x).

(** [x || d] on integers and on doubles. *)
Definition or_Z (x d : Z) : Z := if x =? 0 then d else x.
Definition or_float (x d : float) : float := if truthy x then x else d.

(** [x >= y]; false as soon as one side is [NaN]. *)
Definition geb (x y : float) : bool := PrimFloat.leb y x.

(** Up to this magnitude every integer is a double and [n - 1], [n + 1]
    are computed exactly. *)
Definition max_exact : Z := 2 ^ 53.

(** What reading a property of a plain object that stores option indices
    can give: [undefined], a stored number, or the value (a function, or
    [Object.prototype] itself for [__proto__]) that the object inherits
    under that name. *)
Inductive value :=
| undefined
| number (z : Z)
| inherited (name : string).

(** The property names of [Object.prototype]. *)
Definition prototype_names : list string :=
  ["__proto__"; "constructor"; "hasOwnProperty"; "isPrototypeOf";
   "propertyIsEnumerable"; "toLocaleString"; "toString"; "valueOf";
   "__defineGetter__"; "__defineSetter__"; "__lookupGetter__";
   "__lookupSetter__"].

(** [obj[k]] on a plain object with own properties [obj]. *)
Definition get (obj : gmap string Z) (k : string) : value :=
  match obj !! k with
  | Some z => number z
  | None => if bool_decide (k ∈ prototype_names) then inherited k else undefined
  end.

(** [obj[k] = v] for a number [v].  The inherited methods are writable, so
    the assignment creates an own property; [__proto__] is an accessor
    whose setter ignores a number, so without an own property of that name
    (one that [JSON.parse] created) nothing is stored. *)
Definition set (k : string) (v : Z) (obj : gmap string Z) : gmap string Z :=
  if bool_decide (k = "__proto__") && bool_decide (obj !! k = None)
  then obj
  else <[k := v]> obj.

(** [Number.isInteger(v)]. *)
Definition isInteger (v : value) : bool :=
  match v with
  | number _ => true
  | _ => false
  end.

End Js.

(** ** Data model *)

(** An item of the question list as the data source gives it. *)
Record QuestionData := {
  qd_id : string;
  qd_text : string;
  qd_options : list string;
  qd_correctIndex : Z;
  qd_topic : option string;
}.

(** The quiz definition: [{ title, timeLimitSec, passThreshold, questions }]. *)
Record Quiz := {
  quiz_title : string;
  quiz_timeLimitSec : Z;
  quiz_passThreshold : float;
  quiz_questions : list QuestionData;
}.

(** [class Question]. *)
Record Question := {
  id : string;
  text : string;
  options : list string;
  correctIndex : Z;
  topic : option string;
}.

(** [new Question(q)]; [q.topic || null] turns an empty topic into [null]. *)
Definition new_Question (q : QuestionData) : Question :=
  {| id := qd_id q;
     text := qd_text q;
     options := qd_options q;
     correctIndex := qd_correctIndex q;
     topic := match qd_topic q with
              | Some t => if String.eqb t "" then None else Some t
              | None => None
              end |}.

(** [isCorrect(idx)]: [idx === this.correctIndex]; [undefined] is never
    identical to a number. *)
Definition isCorrect (q : Question) (idx : option Z) : bool :=
  match idx with
  | Some i => i =? correctIndex q
  | None => false
  end.

(** The result of scoring, [{ correct, total, percent, passed }]. *)
Record Summary := {
  correct : Z;
  total : Z;
  percent : float;
  passed : bool;
}.

(** [class QuizEngine]: configuration, question list and session state. *)
Record QuizEngine := {
  title : string;
  timeLimitSec : Z;
  passThreshold : float;
  questions : list Question;
  currentIndex : Z;
  answers : gmap string Z;
  remainingSec : Z;
  isFinished : bool;
  _summary : option Summary;
}.

(** The snapshot [{ quizTitle, currentIndex, answers, remainingSec,
    isFinished }] as [fromState] receives it. *)
Record Snapshot := {
  quizTitle : option string;
  snap_currentIndex : option Z;
  snap_answers : option (gmap string Z);
  snap_remainingSec : option Z;
  snap_isFinished : option bool;
}.

(** ** Field assignments *)

Definition set_currentIndex (e : QuizEngine) (i : Z) : QuizEngine :=
  {| title := title e; timeLimitSec := timeLimitSec e;
     passThreshold := passThreshold e; questions := questions e;
     currentIndex := i; answers := answers e;
     remainingSec := remainingSec e; isFinished := isFinished e;
     _summary := _summary e |}.

Definition set_answers (e : QuizEngine) (a : gmap string Z) : QuizEngine :=
  {| title := title e; timeLimitSec := timeLimitSec e;
     passThreshold := passThreshold e; questions := questions e;
     currentIndex := currentIndex e; answers := a;
     remainingSec := remainingSec e; isFinished := isFinished e;
     _summary := _summary e |}.

Definition set_remainingSec (e : QuizEngine) (r : Z) : QuizEngine :=
  {| title := title e; timeLimitSec := timeLimitSec e;
     passThreshold := passThreshold e; questions := questions e;
     currentIndex := currentIndex e; answers := answers e;
     remainingSec := r; isFinished := isFinished e;
     _summary := _summary e |}.

Definition set_isFinished (e : QuizEngine) (b : bool) : QuizEngine :=
  {| title := title e; timeLimitSec := timeLimitSec e;
     passThreshold := passThreshold e; questions := questions e;
     currentIndex := currentIndex e; answers := answers e;
     remainingSec := remainingSec e; isFinished := b;
     _summary := _summary e |}.

Definition set_summary (e : QuizEngine) (s : option Summary) : QuizEngine :=
  {| title := title e; timeLimitSec := timeLimitSec e;
     passThreshold := passThreshold e; questions := questions e;
     currentIndex := currentIndex e; answers := answers e;
     remainingSec := remainingSec e; isFinished := isFinished e;
     _summary := s |}.

(** ** The engine *)

(** [constructor(quiz)]. *)
Definition new_QuizEngine (quiz : Quiz) : QuizEngine :=
  let tl := Js.or_Z (quiz_timeLimitSec quiz) 300 in
  {| title := quiz_title quiz;
     timeLimitSec := tl;
     passThreshold := Js.or_float (quiz_passThreshold quiz) 0x1.6666666666666p-1%float;
     questions := map new_Question (quiz_questions quiz);
     currentIndex := 0;
     answers := ∅;
     remainingSec := tl;
     isFinished := false;
     _summary := None |}.

(** [get length()]. *)
Definition length (e : QuizEngine) : Z :=
  Z.of_nat (List.length (questions e)).

(** [arr[i]] for an integer [i]: [undefined] outside the array. *)
Definition at_index {A} (l : list A) (i : Z) : option A :=
  if i <? 0 then None else l !! Z.to_nat i.

(** [get currentQuestion()]. *)
Definition currentQuestion (e : QuizEngine) : option Question :=
  at_index (questions e) (currentIndex e).

(** [next()]. *)
Definition next (e : QuizEngine) : QuizEngine :=
  if currentIndex e <? length e - 1
  then set_currentIndex e (currentIndex e + 1)
  else e.

(** [prev()]. *)
Definition prev (e : QuizEngine) : QuizEngine :=
  if currentIndex e >? 0
  then set_currentIndex e (currentIndex e - 1)
  else e.

(** [goTo(idx)]: the two guards in the order of the source. *)
Definition goTo (e : QuizEngine) (idx : Z) : QuizEngine :=
  let idx := if idx <? 0 then 0 else idx in
  let idx := if idx >=? length e then length e - 1 else idx in
  set_currentIndex e idx.

(** [select(optIdx)]. *)
Definition select (e : QuizEngine) (optIdx : Z) : QuizEngine :=
  if isFinished e then e
  else match currentQuestion e with
       | None => e
       | Some q =>
           if (optIdx <? 0) || (optIdx >=? Z.of_nat (List.length (options q)))
           then e
           else set_answers e (Js.set (id q) optIdx (answers e))
       end.

(** [getSelected()]. *)
Definition getSelected (e : QuizEngine) : Js.value :=
  match currentQuestion e with
  | Some q => Js.get (answers e) (id q)
  | None => Js.undefined
  end.

(** The [forEach] loop of [finish]: the counter after visiting [qs]. *)
Definition count_correct (a : gmap string Z) (qs : list Question) : Z :=
  fold_left (fun correct q => if isCorrect q (a !! id q) then correct + 1 else correct)
            qs 0.

(** The summary [finish] computes when it does not answer from the cache. *)
Definition score (e : QuizEngine) : Summary :=
  let correct := count_correct (answers e) (questions e) in
  let total := length e in
  let percent :=
    if total =? 0 then 0%float
    else PrimFloat.div (Js.of_Z correct) (Js.of_Z total) in
  {| correct := correct; total := total; percent := percent;
     passed := Js.geb percent (passThreshold e) |}.

(** [finish()]: the returned summary and the engine after the call. *)
Definition finish (e : QuizEngine) : Summary * QuizEngine :=
  match isFinished e, _summary e with
  | true, Some s => (s, e)
  | _, _ =>
      let s := score e in
      (s, set_summary (set_isFinished e true) (Some s))
  end.

(** [tick()].  [this.remainingSec--] is the exact [remainingSec - 1] for
    integers up to [Js.max_exact]. *)
Definition tick (e : QuizEngine) : QuizEngine :=
  if isFinished e then e
  else if remainingSec e >? 0 then
    let e1 := set_remainingSec e (remainingSec e - 1) in
    if remainingSec e1 <=? 0 then snd (finish e1) else e1
  else snd (finish e).

(** [toState()]. *)
Definition toState (e : QuizEngine) : Snapshot :=
  {| quizTitle := Some (title e);
     snap_currentIndex := Some (currentIndex e);
     snap_answers := Some (answers e);
     snap_remainingSec := Some (remainingSec e);
     snap_isFinished := Some (isFinished e) |}.

(** [static fromState(quiz, state)]; [state] is [None] when the caller
    passes [null]. *)
Definition fromState (quiz : Quiz) (state : option Snapshot) : QuizEngine :=
  let eng := new_QuizEngine quiz in
  match state with
  | None => eng
  | Some state =>
      if negb (bool_decide (quizTitle state = Some (quiz_title quiz))) then eng
      else
        let eng := set_currentIndex eng
                     (match snap_currentIndex state with
                      | Some i => Js.or_Z i 0
                      | None => 0
                      end) in
        let eng := set_answers eng (default ∅ (snap_answers state)) in
        let eng := set_remainingSec eng
                     (default (quiz_timeLimitSec quiz) (snap_remainingSec state)) in
        set_isFinished eng (default false (snap_isFinished state))
  end.

(** ** Sequences of calls *)

(** The engine operations a caller can apply. *)
Inductive Op :=
| OpNext
| OpPrev
| OpGoTo (idx : Z)
| OpSelect (optIdx : Z)
| OpTick
| OpFinish.

Definition step (e : QuizEngine) (o : Op) : QuizEngine :=
  match o with
  | OpNext => next e
  | OpPrev => prev e
  | OpGoTo idx => goTo e idx
  | OpSelect optIdx => select e optIdx
  | OpTick => tick e
  | OpFinish => snd (finish e)
  end.

Definition run (e : QuizEngine) (ops : list Op) : QuizEngine :=
  fold_left step ops e.

(** ** Specification-side notions *)

(** The spec's wording of a correct question: its recorded answer in
    [answers] equals its [correctIndex]. *)
Definition answered_correctly (a : gmap string Z) (q : Question) : Prop :=
  a !! id q = Some (correctIndex q).

#[global] Instance answered_correctly_dec a q : Decision (answered_correctly a q).
Proof. unfold answered_correctly. apply _. Defined.

(** The spec's [correct]: the number of correctly answered questions. *)
Definition number_correct (a : gmap string Z) (qs : list Question) : Z :=
  Z.of_nat (List.length (filter (answered_correctly a) qs)).

(** The cache discipline of [_summary]: a cached summary exists only in a
    finished engine and is the score of the engine's present state. *)
Definition cache_ok (e : QuizEngine) : Prop :=
  match _summary e with
  | Some s => isFinished e = true /\ s = score e
  | None => True
  end.

(** Two engines that differ at most in [currentIndex]. *)
Definition only_currentIndex_differs (e e' : QuizEngine) : Prop :=
  e' = set_currentIndex e (currentIndex e').

(** ** Concrete quizzes used in the scenarios *)

Module Scenario.

Definition question (i : string) (c : Z) : QuestionData :=
  {| qd_id := i; qd_text := "?"; qd_options := ["a"; "b"; "c"];
     qd_correctIndex := c; qd_topic := None |}.

(** Two questions with [correctIndex] 1 and 0, [passThreshold = 0.5]. *)
Definition two_questions : Quiz :=
  {| quiz_title := "quiz"; quiz_timeLimitSec := 60;
     quiz_passThreshold := 0.5%float;
     quiz_questions := [question "q1" 1; question "q2" 0] |}.

(** The same quiz with a one-second limit. *)
Definition one_second : Quiz :=
  {| quiz_title := "quiz"; quiz_timeLimitSec := 1;
     quiz_passThreshold := 0.5%float;
     quiz_questions := [question "q1" 1; question "q2" 0] |}.

(** A quiz without questions whose limit and threshold are both [0]. *)
Definition no_questions : Quiz :=
  {| quiz_title := "empty"; quiz_timeLimitSec := 0;
     quiz_passThreshold := 0%float;
     quiz_questions := [] |}.

(** A quiz whose first question has the id [__proto__]. *)
Definition proto_id : Quiz :=
  {| quiz_title := "quiz"; quiz_timeLimitSec := 60;
     quiz_passThreshold := 0.5%float;
     quiz_questions := [question "__proto__" 1; question "q2" 0] |}.

(** A stored snapshot of a finished session of [two_questions]. *)
Definition finished_snapshot : Snapshot :=
  {| quizTitle := Some "quiz";
     snap_currentIndex := Some 1;
     snap_answers := Some {[ "q1" := 1 ]};
     snap_remainingSec := Some 12;
     snap_isFinished := Some true |}.

(** A snapshot saved for another quiz. *)
Definition foreign_snapshot : Snapshot :=
  {| quizTitle := Some "another quiz";
     snap_currentIndex := Some 1;
     snap_answers := Some {[ "q1" := 1 ]};
     snap_remainingSec := Some 12;
     snap_isFinished := Some true |}.

End Scenario.

(** ** The callers of the engine *)

(** The cursor points at a question. *)
Definition cursor_in_range (e : QuizEngine) : Prop :=
  0 <= currentIndex e < length e.

(** [n] calls of [tick()] in a row. *)
Definition ticks (n : nat) (e : QuizEngine) : QuizEngine := Nat.iter n tick e.

(** [String(n)] for an integer-valued number. *)
Definition String_of_Z (n : Z) : string := pretty n.

(** [s.padStart(targetLength, c)] for a filler [c] of one character. *)
Definition padStart (targetLength : nat) (c : Ascii.ascii) (s : string) : string :=
  String.string_of_list_ascii (replicate (targetLength - String.length s) c) +:+ s.

(** The character of the decimal digit [d]. *)
Definition decimal_digit (d : Z) : Ascii.ascii :=
  Ascii.ascii_of_nat (48 + Z.to_nat d).

(** [renderTimer()]: the text put into the timer element.
    [Math.floor(sec / 60)] is the floor quotient, [sec % 60] the remainder
    with the sign of [sec]. *)
Definition renderTimer (e : QuizEngine) : string :=
  let sec := remainingSec e in
  let m := padStart 2 "0"%char (String_of_Z (sec / 60)) in
  let s := padStart 2 "0"%char (String_of_Z (Z.rem sec 60)) in
  m +:+ ":" +:+ s.

(** The [disabled] flags [renderNav()] sets on the three buttons. *)
Record NavButtons := {
  btnPrev_disabled : bool;
  btnNext_disabled : bool;
  btnFinish_disabled : bool;
}.

(** [renderNav()]. *)
Definition renderNav (e : QuizEngine) : NavButtons :=
  let has := Js.isInteger (getSelected e) in
  {| btnPrev_disabled := currentIndex e =? 0;
     btnNext_disabled := negb ((currentIndex e <? length e - 1) && has);
     btnFinish_disabled := negb ((currentIndex e =? length e - 1) && has) |}.

(** The classes [renderReview()] (and [renderQuestion()] in review mode)
    put on the row of option [i] of question [q]. *)
Record RowClasses := {
  class_correct : bool;
  class_incorrect : bool;
}.

Definition review_row (a : gmap string Z) (q : Question) (i : Z) : RowClasses :=
  {| class_correct := i =? correctIndex q;
     class_incorrect :=
       match a !! id q with
       | Some chosen => (chosen =? i) && negb (i =? correctIndex q)
       | None => false
       end |}.

(** The rows of a question in review: one per option, indexed from 0. *)
Definition review_rows (a : gmap string Z) (q : Question) : list RowClasses :=
  imap (fun i _ => review_row a q (Z.of_nat i)) (options q).

(** What a handler leaves behind: the engine, the snapshot handed to
    [Storage.save], the timer text when the handler renders it, whether
    the interval timer was stopped, and the summary given to
    [renderResult] when there is one. *)
Record Handled := {
  h_engine : QuizEngine;
  h_saved : Snapshot;
  h_timer : option string;
  h_stopped : bool;
  h_result : option Summary;
}.

(** The interval callback installed by [startTimer()]. *)
Definition on_interval (e : QuizEngine) : Handled :=
  let e1 := tick e in
  let saved := toState e1 in
  let shown := renderTimer e1 in
  if isFinished e1 then
    let r := finish e1 in
    {| h_engine := snd r; h_saved := saved; h_timer := Some shown;
       h_stopped := true; h_result := Some (fst r) |}
  else
    {| h_engine := e1; h_saved := saved; h_timer := Some shown;
       h_stopped := false; h_result := None |}.

(** The click handler of the Finish button. *)
Definition on_finish_click (e : QuizEngine) : Handled :=
  let r := finish e in
  {| h_engine := snd r; h_saved := toState (snd r); h_timer := None;
     h_stopped := true; h_result := Some (fst r) |}.

(** The engine chosen at start-up:
    [saved ? QuizEngine.fromState(quiz, saved) : new QuizEngine(quiz)]. *)
Definition init_engine (quiz : Quiz) (saved : option Snapshot) : QuizEngine :=
  match saved with
  | Some st => fromState quiz (Some st)
  | None => new_QuizEngine quiz
  end.

(** The click handler of the Review button:
    [if (!engine.isFinished) engine.finish()]. *)
Definition on_review_click (e : QuizEngine) : QuizEngine :=
  if negb (isFinished e) then snd (finish e) else e.

(** What can happen on the page.  A disabled button delivers no click, so
    the handlers of Prev, Next and Finish run only when [renderNav] left
    their button enabled; the flags are those of the last [renderNav],
    which every handler that moves the cursor or records an answer calls
    again. *)
Inductive UiEvent :=
| ClickPrev
| ClickNext
| ChangeOption (value : Z)
| Interval
| ClickFinish
| ClickReview.

Definition ui_step (e : QuizEngine) (ev : UiEvent) : QuizEngine :=
  match ev with
  | ClickPrev => if btnPrev_disabled (renderNav e) then e else prev e
  | ClickNext => if btnNext_disabled (renderNav e) then e else next e
  | ChangeOption value => select e value
  | Interval => h_engine (on_interval e)
  | ClickFinish =>
      if btnFinish_disabled (renderNav e) then e
      else h_engine (on_finish_click e)
  | ClickReview => on_review_click e
  end.

Definition ui_run (e : QuizEngine) (evs : list UiEvent) : QuizEngine :=
  fold_left ui_step evs e.

(** Every question before the cursor has a recorded answer. *)
Definition answered_before_cursor (e : QuizEngine) : Prop :=
  forall (i : Z) (q : Question),
    0 <= i < currentIndex e ->
    at_index (questions e) i = Some q ->
    is_Some (answers e !! id q).

(** * Properties *)

(** ** The configuration is fixed *)

Ltac unfold_ops :=
  unfold next, prev, goTo, select, tick, finish, set_currentIndex,
    set_answers, set_remainingSec, set_isFinished, set_summary in *.

Ltac split_ops := unfold_ops; repeat case_match; simpl in *.

(** What [score] reads. *)
Lemma score_ext (e e' : QuizEngine) :
  questions e' = questions e ->
  answers e' = answers e ->
  passThreshold e' = passThreshold e ->
  score e' = score e.
Proof. intros Hq Ha Hp. unfold score, length. by rewrite Hq, Ha, Hp. Qed.

Lemma step_title (e : QuizEngine) (o : Op) : title (step e o) = title e.
Proof. destruct o; simpl; split_ops; reflexivity. Qed.

Lemma step_questions (e : QuizEngine) (o : Op) : questions (step e o) = questions e.
Proof. destruct o; simpl; split_ops; reflexivity. Qed.

Lemma step_passThreshold (e : QuizEngine) (o : Op) :
  passThreshold (step e o) = passThreshold e.
Proof. destruct o; simpl; split_ops; reflexivity. Qed.

Lemma run_cons (e : QuizEngine) (o : Op) (ops : list Op) :
  run e (o :: ops) = run (step e o) ops.
Proof. reflexivity. Qed.

Lemma run_title (ops : list Op) (e : QuizEngine) : title (run e ops) = title e.
Proof.
  revert e. induction ops as [|o ops IH]; intros e; [done|].
  by rewrite run_cons, IH, step_title.
Qed.

Lemma fromState_title (quiz : Quiz) (st : option Snapshot) :
  title (fromState quiz st) = quiz_title quiz.
Proof. unfold fromState. repeat case_match; reflexivity. Qed.

(** ** Counting *)

(** The loop counter of [finish] counts the correctly answered questions. *)
Lemma isCorrect_answered (a : gmap string Z) (q : Question) :
  isCorrect q (a !! id q) = bool_decide (answered_correctly a q).
Proof.
  destruct (decide (answered_correctly a q)) as [Hq|Hq].
  - rewrite bool_decide_eq_true_2 by done.
    unfold answered_correctly in Hq. rewrite Hq. simpl. apply Z.eqb_refl.
  - rewrite bool_decide_eq_false_2 by done.
    unfold answered_correctly in Hq. unfold isCorrect.
    destruct (a !! id q) as [i|]; [|done].
    destruct (Z.eqb_spec i (correctIndex q)); congruence.
Qed.

Lemma count_loop (a : gmap string Z) (qs : list Question) (n : Z) :
  fold_left (fun correct q => if isCorrect q (a !! id q) then correct + 1 else correct)
            qs n
  = n + number_correct a qs.
Proof.
  unfold number_correct. revert n.
  induction qs as [|q qs IH]; intros n; simpl; [lia|].
  rewrite IH, isCorrect_answered, filter_cons.
  destruct (decide (answered_correctly a q)) as [Hq|Hq].
  - rewrite bool_decide_eq_true_2 by done. simpl. lia.
  - rewrite bool_decide_eq_false_2 by done. lia.
Qed.

Lemma count_correct_number (a : gmap string Z) (qs : list Question) :
  count_correct a qs = number_correct a qs.
Proof. unfold count_correct. rewrite count_loop. lia. Qed.

(** ** The cache *)

Lemma fromState_summary (quiz : Quiz) (st : option Snapshot) :
  _summary (fromState quiz st) = None.
Proof.
  unfold fromState. destruct st as [s|]; [|reflexivity].
  destruct (negb _); reflexivity.
Qed.

Lemma cache_ok_fromState (quiz : Quiz) (st : option Snapshot) :
  cache_ok (fromState quiz st).
Proof. unfold cache_ok. by rewrite fromState_summary. Qed.

Lemma finish_returns_score (e : QuizEngine) :
  cache_ok e -> fst (finish e) = score e.
Proof.
  unfold cache_ok, finish.
  destruct (isFinished e), (_summary e) as [s|]; simpl; intuition congruence.
Qed.

Lemma cache_ok_finish (e : QuizEngine) :
  cache_ok e -> cache_ok (snd (finish e)).
Proof.
  unfold cache_ok, finish.
  destruct (isFinished e) eqn:Hf, (_summary e) as [s|] eqn:Hs; simpl;
    rewrite ?Hf, ?Hs; intros H; try done; split; try done;
    symmetry; by apply score_ext.
Qed.

Lemma cache_ok_none (e : QuizEngine) : _summary e = None -> cache_ok e.
Proof. unfold cache_ok. by intros ->. Qed.

Lemma cache_ok_active (e : QuizEngine) :
  cache_ok e -> isFinished e = false -> _summary e = None.
Proof.
  unfold cache_ok. destruct (_summary e); [|done].
  intros [Hf _] Hnf. congruence.
Qed.

Lemma cache_ok_set_currentIndex (e : QuizEngine) (i : Z) :
  cache_ok e -> cache_ok (set_currentIndex e i).
Proof.
  unfold cache_ok. simpl. destruct (_summary e) as [s|]; [|done].
  intros [Hf ->]. split; [done|]. symmetry. by apply score_ext.
Qed.

Lemma cache_ok_step (e : QuizEngine) (o : Op) : cache_ok e -> cache_ok (step e o).
Proof.
  intros H. destruct o; simpl.
  - unfold next. case_match; [by apply cache_ok_set_currentIndex|done].
  - unfold prev. case_match; [by apply cache_ok_set_currentIndex|done].
  - by apply cache_ok_set_currentIndex.
  - unfold select. destruct (isFinished e) eqn:Hf; [done|].
    repeat case_match; try done.
    apply cache_ok_none. simpl. by apply cache_ok_active.
  - unfold tick. destruct (isFinished e) eqn:Hf; [done|].
    pose proof (cache_ok_active e H Hf) as Hs.
    repeat case_match.
    + apply cache_ok_finish, cache_ok_none. by simpl.
    + apply cache_ok_none. by simpl.
    + by apply cache_ok_finish.
  - by apply cache_ok_finish.
Qed.

Lemma cache_ok_run (ops : list Op) (e : QuizEngine) :
  cache_ok e -> cache_ok (run e ops).
Proof.
  revert e. induction ops as [|o ops IH]; intros e H; [done|].
  rewrite run_cons. apply IH, cache_ok_step, H.
Qed.

(** ** Scoring *)

Lemma finish_isFinished (e : QuizEngine) : isFinished (snd (finish e)) = true.
Proof.
  unfold finish.
  destruct (isFinished e) eqn:Hf, (_summary e); simpl; by rewrite ?Hf.
Qed.

(** C1. For every engine a caller can obtain (a fresh engine, or one
    restored by [fromState], after any sequence of operations), [finish()]
    returns a summary in which [correct] is the number of questions whose
    recorded answer equals their [correctIndex], [total] is the number of
    questions, [percent] is [correct / total] for a non-empty quiz and [0]
    for an empty one, and [passed] is [percent >= passThreshold];
    afterwards [isFinished] is true.  With two questions whose
    [correctIndex] is 1 and 0, threshold 0.5 and selections 1 and 1 the
    summary is [{correct:1, total:2, percent:0.5, passed:true}]; a quiz
    without questions scores [percent = 0]. *)
Theorem finish_summary :
  (forall (quiz : Quiz) (st : option Snapshot) (ops : list Op),
      let e := run (fromState quiz st) ops in
      let s := fst (finish e) in
      correct s = number_correct (answers e) (questions e)
      /\ total s = Z.of_nat (List.length (questions e))
      /\ (total s > 0 ->
          percent s = PrimFloat.div (Js.of_Z (correct s)) (Js.of_Z (total s)))
      /\ (total s = 0 -> percent s = 0%float)
      /\ passed s = Js.geb (percent s) (passThreshold e)
      /\ isFinished (snd (finish e)) = true)
  /\ fst (finish (run (new_QuizEngine Scenario.two_questions)
                      [OpSelect 1; OpNext; OpSelect 1]))
     = {| correct := 1; total := 2; percent := 0.5%float; passed := true |}
  /\ fst (finish (new_QuizEngine Scenario.no_questions))
     = {| correct := 0; total := 0; percent := 0%float; passed := false |}.
Proof.
  split; [|split; vm_compute; reflexivity].
  intros quiz st ops e s.
  assert (Hs : s = score e).
  { apply finish_returns_score, cache_ok_run, cache_ok_fromState. }
  rewrite Hs. unfold score, length. simpl.
  rewrite count_correct_number.
  repeat split.
  - intros Hpos. destruct (Z.eqb_spec (Z.of_nat (List.length (questions e))) 0); [lia|done].
  - intros ->. reflexivity.
  - apply finish_isFinished.
Qed.

Lemma finish_summary_witness :
  let e := run (fromState Scenario.two_questions None)
               [OpSelect 1; OpNext; OpSelect 1] in
  let s := fst (finish e) in
  percent s = PrimFloat.div (Js.of_Z (correct s)) (Js.of_Z (total s))
  /\ percent (fst (finish (fromState Scenario.no_questions None))) = 0%float.
Proof.
  intros e s. split.
  - refine (proj1 (proj2 (proj2 (proj1 finish_summary Scenario.two_questions
                                   None [OpSelect 1; OpNext; OpSelect 1]))) _).
    vm_compute. reflexivity.
  - exact (proj1 (proj2 (proj2 (proj2
             (proj1 finish_summary Scenario.no_questions None [])))) eq_refl).
Defined.

(** C9. Calling [finish()] twice in succession returns equal summaries:
    the second call answers from the cache left by the first and changes
    nothing, and neither call alters [answers] or [currentIndex]. *)
Theorem finish_twice (e : QuizEngine) :
  let s1 := fst (finish e) in
  let e1 := snd (finish e) in
  let s2 := fst (finish e1) in
  let e2 := snd (finish e1) in
  s2 = s1
  /\ _summary e1 = Some s1
  /\ e2 = e1
  /\ answers e1 = answers e /\ currentIndex e1 = currentIndex e
  /\ answers e2 = answers e /\ currentIndex e2 = currentIndex e.
Proof.
  unfold finish.
  destruct (isFinished e) eqn:Hf, (_summary e) as [s|] eqn:Hs; simpl;
    rewrite ?Hf, ?Hs; simpl; repeat split; reflexivity.
Qed.

(** ** Navigation *)

Lemma set_currentIndex_same (e : QuizEngine) : set_currentIndex e (currentIndex e) = e.
Proof. by destruct e. Qed.

Lemma only_currentIndex_differs_fields (e e' : QuizEngine) :
  only_currentIndex_differs e e' ->
  title e' = title e /\ timeLimitSec e' = timeLimitSec e
  /\ passThreshold e' = passThreshold e /\ questions e' = questions e
  /\ answers e' = answers e /\ remainingSec e' = remainingSec e
  /\ isFinished e' = isFinished e /\ _summary e' = _summary e.
Proof. unfold only_currentIndex_differs. intros ->. by simpl. Qed.

Lemma navigation_only_currentIndex (e : QuizEngine) (idx : Z) :
  only_currentIndex_differs e (next e)
  /\ only_currentIndex_differs e (prev e)
  /\ only_currentIndex_differs e (goTo e idx).
Proof.
  unfold only_currentIndex_differs, next, prev, goTo.
  repeat split; repeat case_match; simpl; by rewrite ?set_currentIndex_same.
Qed.

(** C10. Navigation is pure cursor movement: [next()], [prev()] and
    [goTo(idx)] change nothing but [currentIndex]; [answers],
    [remainingSec], [isFinished] and the cached summary (and the
    configuration) are as before, whether or not the engine is finished. *)
Theorem navigation_frame (e : QuizEngine) (idx : Z) :
  Forall (fun e' =>
            only_currentIndex_differs e e'
            /\ answers e' = answers e
            /\ remainingSec e' = remainingSec e
            /\ isFinished e' = isFinished e
            /\ _summary e' = _summary e)
         [next e; prev e; goTo e idx].
Proof.
  destruct (navigation_only_currentIndex e idx) as (Hn & Hp & Hg).
  pose proof (only_currentIndex_differs_fields e) as Hfields.
  repeat constructor; try done; by apply Hfields.
Qed.

Lemma goTo_order (e : QuizEngine) (idx : Z) :
  goTo e idx = set_currentIndex e (Z.min (Z.max idx 0) (length e - 1)).
Proof.
  unfold goTo. f_equal.
  destruct (Z.ltb_spec idx 0).
  - rewrite Z.max_r by lia.
    destruct (Z.geb_spec 0 (length e)); [rewrite Z.min_r|rewrite Z.min_l]; lia.
  - rewrite Z.max_l by lia.
    destruct (Z.geb_spec idx (length e)); [rewrite Z.min_r|rewrite Z.min_l]; lia.
Qed.

(** C7, as the code has it.  For every integer [idx] and every engine
    with at least one question, [goTo(idx)] sets [currentIndex] to
    [max(0, min(idx, length-1))] and leaves all other state unchanged. *)
Theorem goTo_clamps (e : QuizEngine) (idx : Z) :
  length e >= 1 ->
  currentIndex (goTo e idx) = Z.max 0 (Z.min idx (length e - 1))
  /\ goTo e idx = set_currentIndex e (Z.max 0 (Z.min idx (length e - 1)))
  /\ only_currentIndex_differs e (goTo e idx).
Proof.
  intros Hlen.
  assert (Heq : Z.min (Z.max idx 0) (length e - 1)
                = Z.max 0 (Z.min idx (length e - 1))) by lia.
  rewrite goTo_order, Heq. simpl. repeat split.
Qed.

Lemma goTo_clamps_witness :
  let e := new_QuizEngine Scenario.two_questions in
  currentIndex (goTo e 7) = 1 /\ currentIndex (goTo e (-3)) = 0
  /\ currentIndex (goTo e 1) = 1.
Proof.
  intros e.
  assert (Hlen : length e >= 1) by (vm_compute; discriminate).
  split; [|split].
  - exact (proj1 (goTo_clamps e 7 Hlen)).
  - exact (proj1 (goTo_clamps e (-3) Hlen)).
  - exact (proj1 (goTo_clamps e 1 Hlen)).
Defined.

(** C7 as stated fails without questions: the upper guard runs after the
    lower one and leaves [length - 1 = -1], while the stated value is 0. *)
Lemma goTo_without_questions :
  let e := new_QuizEngine Scenario.no_questions in
  length e = 0
  /\ currentIndex (goTo e 5) = -1
  /\ Z.max 0 (Z.min 5 (length e - 1)) = 0.
Proof. vm_compute. repeat split. Qed.

(** ** Terminal state *)

Lemma step_finished (e : QuizEngine) (o : Op) :
  isFinished e = true -> isFinished (step e o) = true.
Proof.
  intros Hf. destruct o; simpl; try (by apply finish_isFinished).
  - unfold next. by case_match.
  - unfold prev. by case_match.
  - done.
  - unfold select. by rewrite Hf.
  - unfold tick. by rewrite Hf.
Qed.

(** C4. Finished is terminal: from an engine with [isFinished = true],
    each of [next], [prev], [goTo], [select], [tick] and [finish] leaves
    [isFinished = true], and so does every sequence of them. *)
Theorem finished_is_terminal (e : QuizEngine) :
  isFinished e = true ->
  (forall o : Op, isFinished (step e o) = true)
  /\ (forall ops : list Op, isFinished (run e ops) = true).
Proof.
  intros Hf. split.
  - intros o. by apply step_finished.
  - intros ops. revert e Hf.
    induction ops as [|o ops IH]; intros e Hf; [done|].
    rewrite run_cons. by apply IH, step_finished.
Qed.

Lemma finished_is_terminal_witness :
  let e := snd (finish (new_QuizEngine Scenario.two_questions)) in
  isFinished (run e [OpSelect 0; OpPrev; OpGoTo 1; OpTick; OpNext; OpFinish]) = true.
Proof.
  intros e.
  exact (proj2 (finished_is_terminal e eq_refl)
               [OpSelect 0; OpPrev; OpGoTo 1; OpTick; OpNext; OpFinish]).
Defined.

(** ** Recording answers *)

Lemma Js_set_ordinary (k : string) (v : Z) (obj : gmap string Z) :
  k <> "__proto__" \/ is_Some (obj !! k) -> Js.set k v obj = <[k := v]> obj.
Proof.
  unfold Js.set. intros [Hk|[z Hz]].
  - by rewrite (bool_decide_eq_false_2 (k = "__proto__")).
  - rewrite (bool_decide_eq_false_2 (obj !! k = None)) by congruence.
    by rewrite andb_false_r.
Qed.

Lemma Js_set_proto (k : string) (v : Z) (obj : gmap string Z) :
  k = "__proto__" -> obj !! k = None -> Js.set k v obj = obj.
Proof.
  unfold Js.set. intros Hk Hnone. by rewrite !bool_decide_eq_true_2.
Qed.

Lemma Js_set_cases (k : string) (v : Z) (obj : gmap string Z) :
  (Js.set k v obj = obj /\ k = "__proto__" /\ obj !! k = None)
  \/ (Js.set k v obj = <[k := v]> obj
       /\ (k <> "__proto__" \/ is_Some (obj !! k))).
Proof.
  destruct (decide (k = "__proto__")) as [Hk|Hk].
  - destruct (obj !! k) as [z|] eqn:Hz.
    + right. split; [|eauto]. apply Js_set_ordinary. eauto.
    + left. split; [|done]. by apply Js_set_proto.
  - right. split; [|eauto]. apply Js_set_ordinary. eauto.
Qed.

Lemma Js_set_set (k : string) (i j : Z) (obj : gmap string Z) :
  Js.set k j (Js.set k i obj) = Js.set k j obj.
Proof.
  destruct (Js_set_cases k i obj) as [(-> & _ & _)|(-> & Hk)]; [done|].
  rewrite (Js_set_ordinary k j obj Hk).
  rewrite Js_set_ordinary.
  - apply insert_insert_eq.
  - right. rewrite lookup_insert_eq. eauto.
Qed.

Lemma Js_set_is_Some (k k' : string) (v : Z) (obj : gmap string Z) :
  is_Some (obj !! k') -> is_Some (Js.set k v obj !! k').
Proof.
  intros H. destruct (Js_set_cases k v obj) as [(-> & _ & _)|(-> & _)]; [done|].
  apply lookup_insert_is_Some'. by right.
Qed.

Lemma Js_get_number (obj : gmap string Z) (k : string) (z : Z) :
  Js.get obj k = Js.number z <-> obj !! k = Some z.
Proof.
  unfold Js.get. destruct (obj !! k) as [z'|].
  - split; congruence.
  - split; [|done]. by case_bool_decide.
Qed.

Lemma Js_isInteger_get (obj : gmap string Z) (k : string) :
  Js.isInteger (Js.get obj k) = true <-> is_Some (obj !! k).
Proof.
  unfold Js.get. destruct (obj !! k) as [z|]; simpl.
  - split; eauto.
  - split; [by case_bool_decide|]. by intros [? ?].
Qed.

Lemma select_in_range (e : QuizEngine) (q : Question) (optIdx : Z) :
  isFinished e = false ->
  currentQuestion e = Some q ->
  0 <= optIdx < Z.of_nat (List.length (options q)) ->
  select e optIdx = set_answers e (Js.set (id q) optIdx (answers e)).
Proof.
  intros Hf Hq [Hlo Hhi]. unfold select. rewrite Hf, Hq.
  destruct (Z.ltb_spec optIdx 0); [lia|].
  destruct (Z.geb_spec optIdx (Z.of_nat (List.length (options q)))); [lia|].
  reflexivity.
Qed.

Lemma set_answers_same (e : QuizEngine) : set_answers e (answers e) = e.
Proof. by destruct e. Qed.

(** C5.  [select(optionIndex)] is to set
    [answers[id of the current question] = optionIndex] whenever the
    engine is not finished and the index is a valid option.  The code does
    not do so for a question whose id is [__proto__]: on the fresh engine
    of such a quiz [select(0)] is in range and yet leaves the engine as it
    was, with no entry recorded, and [getSelected()] then answers
    [Object.prototype]. *)
Theorem select_loses_proto_id :
  let e := new_QuizEngine Scenario.proto_id in
  isFinished e = false
  /\ (exists q : Question,
        currentQuestion e = Some q /\ id q = "__proto__"
        /\ 0 <= 0 < Z.of_nat (List.length (options q)))
  /\ select e 0 = e
  /\ answers (select e 0) !! "__proto__" = None
  /\ getSelected (select e 0) = Js.inherited "__proto__".
Proof.
  intros e. refine (conj eq_refl (conj _ (conj _ (conj _ _)))).
  - exists (new_Question (Scenario.question "__proto__" 1)).
    refine (conj eq_refl (conj eq_refl _)). simpl. lia.
  - vm_compute. reflexivity.
  - vm_compute. reflexivity.
  - vm_compute. reflexivity.
Qed.

(** [select(optionIndex)] case by case.  While the engine is not finished
    and [0 <= optionIndex < number of options of the current question],
    the call sets [answers[id] = optionIndex] for the id of the current
    question, overwriting a prior selection and touching no other entry or
    field, provided the id is not [__proto__] (or [answers] already owns a
    property of that name); for the id [__proto__] without such a property
    it changes nothing.  While the engine is finished, when [optionIndex]
    is out of range, or when there is no current question, the whole
    engine state is left as it was. *)
Theorem select_spec (e : QuizEngine) (optIdx : Z) :
  (forall q : Question,
      isFinished e = false ->
      currentQuestion e = Some q ->
      0 <= optIdx < Z.of_nat (List.length (options q)) ->
      id q <> "__proto__" \/ is_Some (answers e !! id q) ->
      select e optIdx = set_answers e (<[id q := optIdx]> (answers e))
      /\ answers (select e optIdx) !! id q = Some optIdx
      /\ (forall k : string, k <> id q ->
            answers (select e optIdx) !! k = answers e !! k))
  /\ (forall q : Question,
        isFinished e = false ->
        currentQuestion e = Some q ->
        0 <= optIdx < Z.of_nat (List.length (options q)) ->
        id q = "__proto__" -> answers e !! id q = None ->
        select e optIdx = e)
  /\ (isFinished e = true -> select e optIdx = e)
  /\ (forall q : Question,
        currentQuestion e = Some q ->
        ~ (0 <= optIdx < Z.of_nat (List.length (options q))) ->
        select e optIdx = e)
  /\ (currentQuestion e = None -> select e optIdx = e).
Proof.
  refine (conj _ (conj _ (conj _ (conj _ _)))).
  - intros q Hf Hq Hr Hid.
    rewrite (select_in_range e q) by done.
    rewrite Js_set_ordinary by done. simpl.
    refine (conj eq_refl (conj _ _)).
    + apply lookup_insert_eq.
    + intros k Hk. by apply lookup_insert_ne.
  - intros q Hf Hq Hr Hid Hnone.
    rewrite (select_in_range e q) by done.
    rewrite Js_set_proto by done. apply set_answers_same.
  - intros Hf. unfold select. by rewrite Hf.
  - intros q Hq Hout. unfold select. rewrite Hq.
    destruct (isFinished e); [done|].
    destruct (Z.ltb_spec optIdx 0); [done|].
    destruct (Z.geb_spec optIdx (Z.of_nat (List.length (options q)))); [done|].
    lia.
  - intros Hq. unfold select. rewrite Hq. by destruct (isFinished e).
Qed.

Lemma select_spec_witness :
  let e0 := new_QuizEngine Scenario.two_questions in
  let e := select e0 0 in
  answers e !! "q1" = Some 0
  /\ answers (select e 2) !! "q1" = Some 2
  /\ select (snd (finish e)) 2 = snd (finish e)
  /\ select e 3 = e
  /\ select (goTo e 9) (-1) = goTo e 9
  /\ select (new_QuizEngine Scenario.proto_id) 1
     = new_QuizEngine Scenario.proto_id.
Proof.
  intros e0 e.
  pose (q1 := new_Question (Scenario.question "q1" 1)).
  pose (q2 := new_Question (Scenario.question "q2" 0)).
  pose (qp := new_Question (Scenario.question "__proto__" 1)).
  assert (Hq1 : id q1 <> "__proto__") by (vm_compute; discriminate).
  refine (conj _ (conj _ (conj _ (conj _ (conj _ _))))).
  - refine (proj1 (proj2 (proj1 (select_spec e0 0) q1 eq_refl eq_refl _
                            (or_introl Hq1)))).
    vm_compute. split; [discriminate|reflexivity].
  - refine (proj1 (proj2 (proj1 (select_spec e 2) q1 eq_refl eq_refl _
                            (or_introl Hq1)))).
    vm_compute. split; [discriminate|reflexivity].
  - exact (proj1 (proj2 (proj2 (select_spec (snd (finish e)) 2))) eq_refl).
  - refine (proj1 (proj2 (proj2 (proj2 (select_spec e 3)))) q1 eq_refl _).
    vm_compute. intros [_ H]. discriminate H.
  - refine (proj1 (proj2 (proj2 (proj2 (select_spec (goTo e 9) (-1)))))
                  q2 eq_refl _).
    vm_compute. intros [H _]. by apply H.
  - refine (proj1 (proj2 (select_spec (new_QuizEngine Scenario.proto_id) 1))
                  qp eq_refl eq_refl _ eq_refl eq_refl).
    vm_compute. split; [discriminate|reflexivity].
Defined.

(** ** The countdown *)

Lemma finish_active (e : QuizEngine) :
  isFinished e = false ->
  snd (finish e) = set_summary (set_isFinished e true) (Some (score e)).
Proof. intros Hf. unfold finish. by rewrite Hf. Qed.

(** C3, as the code has it.  In an engine that is not finished, [tick()]
    with [0 < remainingSec <= 2^53] (where the decrement of a JS number is
    exact) decrements [remainingSec] by exactly 1 and, if that reaches 0,
    finishes the engine through scoring (so with [timeLimitSec = 1] a
    single [tick()] leaves [remainingSec = 0], [isFinished = true] and a
    computed summary); with [remainingSec <= 0] it scores at once without
    decrementing.  In a finished engine [tick()] returns at once: nothing
    is scored and the whole state, [remainingSec] included, is
    unchanged. *)
Theorem tick_spec :
  (forall e : QuizEngine,
      (isFinished e = false -> remainingSec e > 0 ->
       remainingSec e <= Js.max_exact ->
       remainingSec (tick e) = remainingSec e - 1
       /\ (remainingSec e - 1 = 0 ->
           tick e = snd (finish (set_remainingSec e 0))
           /\ isFinished (tick e) = true
           /\ _summary (tick e) = Some (score e))
       /\ (remainingSec e - 1 <> 0 ->
           tick e = set_remainingSec e (remainingSec e - 1)))
      /\ (isFinished e = false -> remainingSec e <= 0 ->
          tick e = snd (finish e)
          /\ remainingSec (tick e) = remainingSec e
          /\ isFinished (tick e) = true
          /\ _summary (tick e) = Some (score e))
      /\ (isFinished e = true -> tick e = e))
  /\ (forall quiz : Quiz,
        quiz_timeLimitSec quiz = 1 ->
        let e := tick (new_QuizEngine quiz) in
        remainingSec e = 0 /\ isFinished e = true
        /\ _summary e = Some (score (new_QuizEngine quiz))).
Proof.
  assert (Hgen : forall e : QuizEngine,
             isFinished e = false -> remainingSec e > 0 ->
             remainingSec e <= Js.max_exact ->
             remainingSec (tick e) = remainingSec e - 1
             /\ (remainingSec e - 1 = 0 ->
                 tick e = snd (finish (set_remainingSec e 0))
                 /\ isFinished (tick e) = true
                 /\ _summary (tick e) = Some (score e))
             /\ (remainingSec e - 1 <> 0 ->
                 tick e = set_remainingSec e (remainingSec e - 1))).
  { intros e Hf Hpos _. unfold tick. rewrite Hf.
    destruct (Z.gtb_spec (remainingSec e) 0) as [_|]; [|lia].
    cbn [remainingSec set_remainingSec].
    destruct (Z.leb_spec (remainingSec e - 1) 0) as [Hle|Hgt].
    - assert (H0 : remainingSec e - 1 = 0) by lia. rewrite H0.
      rewrite finish_active by done. simpl.
      split; [done|]. split; [|lia]. intros _. repeat split.
    - split; [done|]. split; [lia|done]. }
  split; [intros e; split; [by apply Hgen|split]|].
  - intros Hf Hle. unfold tick. rewrite Hf.
    destruct (Z.gtb_spec (remainingSec e) 0) as [|_]; [lia|].
    rewrite finish_active by done. by simpl.
  - intros Hf. unfold tick. by rewrite Hf.
  - intros quiz Hone e.
    assert (H1 : remainingSec (new_QuizEngine quiz) = 1).
    { simpl. unfold Js.or_Z. by rewrite Hone. }
    assert (Hpos : remainingSec (new_QuizEngine quiz) > 0) by lia.
    assert (Hmax : remainingSec (new_QuizEngine quiz) <= Js.max_exact).
    { rewrite H1. vm_compute. discriminate. }
    destruct (Hgen (new_QuizEngine quiz) eq_refl Hpos Hmax) as (Hrem & Hzero & _).
    subst e. rewrite Hrem, H1. split; [done|]. apply Hzero. lia.
Qed.

Lemma tick_spec_witness :
  let e := new_QuizEngine Scenario.two_questions in
  let e1 := new_QuizEngine Scenario.one_second in
  let e2 := set_remainingSec e 0 in
  let e3 := snd (finish e) in
  tick e = set_remainingSec e 59
  /\ isFinished (tick e1) = true
  /\ tick e2 = snd (finish e2)
  /\ tick e3 = e3
  /\ remainingSec (tick e1) = 0.
Proof.
  intros e e1 e2 e3.
  assert (Hpos : remainingSec e > 0) by reflexivity.
  assert (Hmax : remainingSec e <= Js.max_exact) by (vm_compute; discriminate).
  assert (Hpos1 : remainingSec e1 > 0) by reflexivity.
  assert (Hmax1 : remainingSec e1 <= Js.max_exact) by (vm_compute; discriminate).
  refine (conj _ (conj _ (conj _ (conj _ _)))).
  - refine (proj2 (proj2 (proj1 (proj1 tick_spec e) eq_refl Hpos Hmax)) _).
    vm_compute. discriminate.
  - exact (proj1 (proj2 (proj1 (proj2
             (proj1 (proj1 tick_spec e1) eq_refl Hpos1 Hmax1)) eq_refl))).
  - refine (proj1 (proj1 (proj2 (proj1 tick_spec e2)) eq_refl _)).
    vm_compute. discriminate.
  - exact (proj2 (proj2 (proj1 tick_spec e3)) eq_refl).
  - exact (proj1 (proj2 tick_spec Scenario.one_second eq_refl)).
Defined.

(** Above [2^53] the decrement of a double is no longer [- 1]: from
    [2^53 + 2] it lands on [2^53], and at [2^54] it does not move. *)
Lemma double_decrement_rounds :
  PrimFloat.sub (Js.of_Z (Js.max_exact + 2)) 1%float = Js.of_Z Js.max_exact
  /\ PrimFloat.sub (Js.of_Z (2 * Js.max_exact)) 1%float
     = Js.of_Z (2 * Js.max_exact)
  /\ PrimFloat.sub (Js.of_Z Js.max_exact) 1%float
     = Js.of_Z (Js.max_exact - 1).
Proof. vm_compute. repeat split. Qed.

(** C3 as stated fails in its last case: an engine restored from a
    snapshot of a finished session has no cached summary; [finish()] would
    compute one, [tick()] leaves it absent. *)
Lemma tick_finished_does_not_score :
  let e := fromState Scenario.two_questions (Some Scenario.finished_snapshot) in
  isFinished e = true
  /\ _summary (snd (finish e))
     = Some {| correct := 1; total := 2; percent := 0.5%float; passed := true |}
  /\ _summary (tick e) = None.
Proof. vm_compute. repeat split. Qed.

(** ** Snapshots *)

Lemma or_Z_zero (i : Z) : Js.or_Z i 0 = i.
Proof. unfold Js.or_Z. by destruct (Z.eqb_spec i 0). Qed.

(** Restoring the snapshot of an engine of the same title. *)
Lemma fromState_toState (quiz : Quiz) (e : QuizEngine) :
  title e = quiz_title quiz ->
  let e' := fromState quiz (Some (toState e)) in
  currentIndex e' = currentIndex e
  /\ answers e' = answers e
  /\ remainingSec e' = remainingSec e
  /\ isFinished e' = isFinished e.
Proof.
  intros Ht. unfold fromState, toState. cbn [quizTitle].
  rewrite Ht, bool_decide_eq_true_2 by done.
  simpl. by rewrite or_Z_zero.
Qed.

(** C2. Round trip: for every engine [e] built from a quiz definition and
    driven by any sequence of [next], [prev], [goTo], [select], [tick] and
    [finish], the engine [fromState(quiz, e.toState())] has the
    [currentIndex], [answers], [remainingSec] and [isFinished] of [e]. *)
Theorem toState_fromState_roundtrip (quiz : Quiz) (ops : list Op) :
  let e := run (new_QuizEngine quiz) ops in
  let e' := fromState quiz (Some (toState e)) in
  currentIndex e' = currentIndex e
  /\ answers e' = answers e
  /\ remainingSec e' = remainingSec e
  /\ isFinished e' = isFinished e.
Proof.
  intros e. apply fromState_toState.
  subst e. by rewrite run_title.
Qed.

(** C8. [fromState(quiz, snapshot)] with no snapshot, or with a snapshot
    whose [quizTitle] is not the quiz's title, returns an engine equal in
    every field to a freshly constructed one; the call always returns. *)
Theorem fromState_mismatch (quiz : Quiz) (state : option Snapshot) :
  (forall s : Snapshot, state = Some s -> quizTitle s <> Some (quiz_title quiz)) ->
  fromState quiz state = new_QuizEngine quiz.
Proof.
  intros Hdiff. unfold fromState.
  destruct state as [s|]; [|reflexivity].
  rewrite bool_decide_eq_false_2; [reflexivity|].
  by apply Hdiff.
Qed.

Lemma fromState_mismatch_witness :
  fromState Scenario.two_questions (Some Scenario.foreign_snapshot)
  = new_QuizEngine Scenario.two_questions
  /\ fromState Scenario.two_questions None = new_QuizEngine Scenario.two_questions.
Proof.
  split.
  - refine (fromState_mismatch Scenario.two_questions
              (Some Scenario.foreign_snapshot) _).
    intros s Hs. injection Hs as <-. vm_compute. discriminate.
  - refine (fromState_mismatch Scenario.two_questions None _).
    intros s Hs. discriminate Hs.
Defined.

(** ** Construction *)

(** A positive number is truthy. *)
Lemma truthy_positive (x : float) :
  PrimFloat.ltb 0%float x = true -> Js.truthy x = true.
Proof.
  unfold Js.truthy, is_nan. rewrite FloatAxioms.ltb_spec, !FloatAxioms.eqb_spec.
  change (Prim2SF 0%float) with (S754_zero false).
  unfold SFltb, SFeqb.
  destruct (Prim2SF x) as [s|s| |s m e]; simpl; try discriminate.
  - destruct s; [discriminate|reflexivity].
  - destruct s; [discriminate|]. intros _.
    by rewrite Z.compare_refl, Pos.compare_cont_refl.
Qed.

(** C6, as the code has it.  A freshly constructed engine has
    [title = quiz.title]; [timeLimitSec = quiz.timeLimitSec] unless that is
    0, when it is 300; [passThreshold = quiz.passThreshold] unless that is
    0 or NaN (in particular whenever it is positive), when it is 0.7.  Its
    initial state is [currentIndex = 0], [answers] empty,
    [remainingSec = timeLimitSec] of the engine, [isFinished = false] and no
    cached summary. *)
Theorem constructor_spec (quiz : Quiz) :
  let e := new_QuizEngine quiz in
  title e = quiz_title quiz
  /\ (quiz_timeLimitSec quiz <> 0 -> timeLimitSec e = quiz_timeLimitSec quiz)
  /\ (quiz_timeLimitSec quiz = 0 -> timeLimitSec e = 300)
  /\ (Js.truthy (quiz_passThreshold quiz) = true ->
      passThreshold e = quiz_passThreshold quiz)
  /\ (PrimFloat.ltb 0%float (quiz_passThreshold quiz) = true ->
      passThreshold e = quiz_passThreshold quiz)
  /\ (Js.truthy (quiz_passThreshold quiz) = false ->
      passThreshold e = 0x1.6666666666666p-1%float)
  /\ questions e = map new_Question (quiz_questions quiz)
  /\ currentIndex e = 0
  /\ answers e = ∅
  /\ remainingSec e = timeLimitSec e
  /\ isFinished e = false
  /\ _summary e = None.
Proof.
  simpl. unfold Js.or_Z, Js.or_float.
  refine (conj eq_refl (conj _ (conj _ (conj _ (conj _ (conj _ _)))))).
  - intros Hne. by destruct (Z.eqb_spec (quiz_timeLimitSec quiz) 0).
  - by intros ->.
  - by intros ->.
  - intros Hpos. by rewrite truthy_positive.
  - by intros ->.
  - repeat split.
Qed.

Lemma constructor_spec_witness :
  let e := new_QuizEngine Scenario.two_questions in
  timeLimitSec e = 60 /\ passThreshold e = 0.5%float
  /\ timeLimitSec (new_QuizEngine Scenario.no_questions) = 300
  /\ passThreshold (new_QuizEngine Scenario.no_questions)
     = 0x1.6666666666666p-1%float.
Proof.
  intros e.
  refine (conj _ (conj _ (conj _ _))).
  - refine (proj1 (proj2 (constructor_spec Scenario.two_questions)) _).
    vm_compute. discriminate.
  - exact (proj1 (proj2 (proj2 (proj2 (proj2
             (constructor_spec Scenario.two_questions))))) eq_refl).
  - exact (proj1 (proj2 (proj2 (constructor_spec Scenario.no_questions))) eq_refl).
  - exact (proj1 (proj2 (proj2 (proj2 (proj2 (proj2
             (constructor_spec Scenario.no_questions)))))) eq_refl).
Defined.

(** C6 as stated fails when the quiz definition carries a time limit or a
    threshold of 0: the constructor substitutes its defaults. *)
Lemma constructor_defaults :
  let quiz := Scenario.no_questions in
  let e := new_QuizEngine quiz in
  quiz_timeLimitSec quiz = 0 /\ timeLimitSec e = 300
  /\ quiz_passThreshold quiz = 0%float
  /\ passThreshold e = 0x1.6666666666666p-1%float.
Proof. vm_compute. repeat split. Qed.

(** * Further properties of the engine *)

(** ** The cursor *)

Lemma step_length (e : QuizEngine) (o : Op) : length (step e o) = length e.
Proof. unfold length. by rewrite step_questions. Qed.

Lemma run_questions (ops : list Op) (e : QuizEngine) :
  questions (run e ops) = questions e.
Proof.
  revert e. induction ops as [|o ops IH]; intros e; [done|].
  by rewrite run_cons, IH, step_questions.
Qed.

Lemma cursor_in_range_step (e : QuizEngine) (o : Op) :
  cursor_in_range e -> cursor_in_range (step e o).
Proof.
  unfold cursor_in_range. intros [Hlo Hhi]. rewrite step_length.
  destruct o; cbn [step].
  - unfold next. destruct (Z.ltb_spec (currentIndex e) (length e - 1)); simpl; lia.
  - unfold prev. destruct (Z.gtb_spec (currentIndex e) 0); simpl; lia.
  - rewrite goTo_order. simpl. lia.
  - unfold select. repeat case_match; simpl; lia.
  - unfold tick, finish. repeat case_match; simpl; lia.
  - unfold finish. repeat case_match; simpl; lia.
Qed.

Lemma cursor_in_range_run (ops : list Op) (e : QuizEngine) :
  cursor_in_range e -> cursor_in_range (run e ops).
Proof.
  revert e. induction ops as [|o ops IH]; intros e H; [done|].
  rewrite run_cons. by apply IH, cursor_in_range_step.
Qed.

Lemma cursor_in_range_question (e : QuizEngine) :
  cursor_in_range e -> is_Some (currentQuestion e).
Proof.
  unfold cursor_in_range, currentQuestion, at_index, length. intros [Hlo Hhi].
  destruct (Z.ltb_spec (currentIndex e) 0); [lia|].
  apply lookup_lt_is_Some. lia.
Qed.

Lemma new_QuizEngine_length (quiz : Quiz) :
  length (new_QuizEngine quiz) = Z.of_nat (List.length (quiz_questions quiz)).
Proof. unfold length. simpl. by rewrite length_map. Qed.

Lemma nonempty_length (quiz : Quiz) :
  quiz_questions quiz <> [] -> length (new_QuizEngine quiz) >= 1.
Proof.
  rewrite new_QuizEngine_length. destruct (quiz_questions quiz); [done|].
  simpl. lia.
Qed.

(** An engine constructed from a quiz with at least one question always
    points at a question: after any sequence of operations
    [0 <= currentIndex < length], so [currentQuestion] is defined. *)
Theorem cursor_stays_in_range (quiz : Quiz) (ops : list Op) :
  quiz_questions quiz <> [] ->
  let e := run (new_QuizEngine quiz) ops in
  cursor_in_range e /\ is_Some (currentQuestion e).
Proof.
  intros Hne e.
  assert (Hr : cursor_in_range e).
  { apply cursor_in_range_run. unfold cursor_in_range.
    pose proof (nonempty_length quiz Hne). simpl. lia. }
  split; [done|]. by apply cursor_in_range_question.
Qed.

Lemma cursor_stays_in_range_witness :
  let e := run (new_QuizEngine Scenario.two_questions)
               [OpNext; OpNext; OpSelect 2; OpPrev; OpPrev; OpGoTo 9; OpTick] in
  cursor_in_range e /\ is_Some (currentQuestion e).
Proof.
  intros e.
  refine (cursor_stays_in_range Scenario.two_questions
            [OpNext; OpNext; OpSelect 2; OpPrev; OpPrev; OpGoTo 9; OpTick] _).
  vm_compute. discriminate.
Defined.

Lemma length_set_currentIndex (e : QuizEngine) (i : Z) :
  length (set_currentIndex e i) = length e.
Proof. reflexivity. Qed.

Lemma fromState_length (quiz : Quiz) (st : option Snapshot) :
  length (fromState quiz st) = length (new_QuizEngine quiz).
Proof.
  unfold fromState, length. destruct st as [s|]; [|done].
  by destruct (negb _).
Qed.

(** [fromState] takes [currentIndex] from the snapshot as it is, but one
    [goTo] repairs it: whatever the snapshot, on a quiz with at least one
    question the cursor is in range after [goTo(idx)] and stays in range
    under every later operation. *)
Theorem goTo_repairs_restored_cursor
        (quiz : Quiz) (st : option Snapshot) (idx : Z) (ops : list Op) :
  quiz_questions quiz <> [] ->
  let e := run (fromState quiz st) (OpGoTo idx :: ops) in
  cursor_in_range e /\ is_Some (currentQuestion e).
Proof.
  intros Hne e.
  assert (Hr : cursor_in_range e).
  { subst e. rewrite run_cons. apply cursor_in_range_run.
    pose proof (nonempty_length quiz Hne) as Hlen.
    rewrite <- (fromState_length quiz st) in Hlen.
    unfold cursor_in_range. cbn [step]. rewrite goTo_order.
    rewrite length_set_currentIndex. cbn [currentIndex set_currentIndex].
    lia. }
  split; [done|]. by apply cursor_in_range_question.
Qed.

Lemma goTo_repairs_restored_cursor_witness :
  let st := {| quizTitle := Some "quiz"; snap_currentIndex := Some 99;
               snap_answers := None; snap_remainingSec := None;
               snap_isFinished := None |} in
  currentQuestion (fromState Scenario.two_questions (Some st)) = None
  /\ cursor_in_range
       (run (fromState Scenario.two_questions (Some st)) [OpGoTo 99; OpPrev]).
Proof.
  intros st. split; [reflexivity|].
  refine (proj1 (goTo_repairs_restored_cursor Scenario.two_questions
                   (Some st) 99 [OpPrev] _)).
  vm_compute. discriminate.
Defined.

Lemma set_currentIndex_twice (e : QuizEngine) (i j : Z) :
  set_currentIndex (set_currentIndex e i) j = set_currentIndex e j.
Proof. reflexivity. Qed.

(** Inside the question list [next()] and [prev()] undo each other, and
    at the two ends they do nothing: [prev] after [next] restores the
    engine unless the cursor was on the last question, where [next]
    changes nothing; symmetrically for [next] after [prev] and the first
    question. *)
Theorem next_prev_inverse (e : QuizEngine) :
  cursor_in_range e ->
  (currentIndex e < length e - 1 -> prev (next e) = e)
  /\ (currentIndex e = length e - 1 -> next e = e)
  /\ (0 < currentIndex e -> next (prev e) = e)
  /\ (currentIndex e = 0 -> prev e = e).
Proof.
  unfold cursor_in_range. intros [Hlo Hhi].
  refine (conj _ (conj _ (conj _ _))).
  - intros Hlt. unfold next.
    destruct (Z.ltb_spec (currentIndex e) (length e - 1)); [|lia].
    unfold prev. cbn [currentIndex set_currentIndex].
    destruct (Z.gtb_spec (currentIndex e + 1) 0); [|lia].
    rewrite set_currentIndex_twice.
    replace (currentIndex e + 1 - 1) with (currentIndex e) by lia.
    apply set_currentIndex_same.
  - intros Hlast. unfold next.
    by destruct (Z.ltb_spec (currentIndex e) (length e - 1)); [lia|].
  - intros Hpos. unfold prev.
    destruct (Z.gtb_spec (currentIndex e) 0); [|lia].
    unfold next. cbn [currentIndex set_currentIndex].
    rewrite length_set_currentIndex.
    destruct (Z.ltb_spec (currentIndex e - 1) (length e - 1)); [|lia].
    rewrite set_currentIndex_twice.
    replace (currentIndex e - 1 + 1) with (currentIndex e) by lia.
    apply set_currentIndex_same.
  - intros Hfirst. unfold prev.
    by destruct (Z.gtb_spec (currentIndex e) 0); [lia|].
Qed.

Lemma next_prev_inverse_witness :
  let e := new_QuizEngine Scenario.two_questions in
  prev (next e) = e /\ prev e = e /\ next (next e) = next e
  /\ next (prev (next e)) = next e.
Proof.
  intros e.
  assert (He : cursor_in_range e) by (vm_compute; split; [discriminate|reflexivity]).
  assert (Hn : cursor_in_range (next e))
    by (vm_compute; split; [discriminate|reflexivity]).
  refine (conj _ (conj _ (conj _ _))).
  - refine (proj1 (next_prev_inverse e He) _). vm_compute. reflexivity.
  - exact (proj2 (proj2 (proj2 (next_prev_inverse e He))) eq_refl).
  - exact (proj1 (proj2 (next_prev_inverse (next e) Hn)) eq_refl).
  - refine (proj1 (proj2 (proj2 (next_prev_inverse (next e) Hn))) _).
    vm_compute. reflexivity.
Defined.

(** With the cursor in range, [next()] is [goTo(currentIndex + 1)] and
    [prev()] is [goTo(currentIndex - 1)]: the three navigation methods
    clamp in the same way. *)
Theorem next_prev_as_goTo (e : QuizEngine) :
  cursor_in_range e ->
  next e = goTo e (currentIndex e + 1)
  /\ prev e = goTo e (currentIndex e - 1).
Proof.
  unfold cursor_in_range. intros [Hlo Hhi]. rewrite !goTo_order. split.
  - unfold next.
    destruct (Z.ltb_spec (currentIndex e) (length e - 1)).
    + f_equal. lia.
    + replace (Z.min (Z.max (currentIndex e + 1) 0) (length e - 1))
        with (currentIndex e) by lia.
      by rewrite set_currentIndex_same.
  - unfold prev.
    destruct (Z.gtb_spec (currentIndex e) 0).
    + f_equal. lia.
    + replace (Z.min (Z.max (currentIndex e - 1) 0) (length e - 1))
        with (currentIndex e) by lia.
      by rewrite set_currentIndex_same.
Qed.

Lemma next_prev_as_goTo_witness :
  let e := next (new_QuizEngine Scenario.two_questions) in
  next e = goTo e 2 /\ prev e = goTo e 0.
Proof.
  intros e.
  refine (next_prev_as_goTo e _).
  vm_compute. split; [discriminate|reflexivity].
Defined.

(** ** Answers *)

(** Selecting is idempotent, and the last valid selection wins:
    [select(i)] twice is [select(i)] once, and after any [select(i)] a
    valid [select(j)] on the same question leaves exactly the state that
    [select(j)] alone would have left. *)
Theorem select_last_wins (e : QuizEngine) (i j : Z) :
  select (select e i) i = select e i
  /\ (forall q : Question,
        currentQuestion e = Some q ->
        0 <= j < Z.of_nat (List.length (options q)) ->
        select (select e i) j = select e j).
Proof.
  assert (Hover : forall (q : Question) (k : Z),
             currentQuestion e = Some q ->
             0 <= k < Z.of_nat (List.length (options q)) ->
             select (select e i) k = select e k).
  { intros q k Hq Hk.
    destruct (isFinished e) eqn:Hf.
    { assert (Hsame : forall k', select e k' = e)
        by (intros k'; unfold select; by rewrite Hf).
      by rewrite !Hsame. }
    rewrite (select_in_range e q k) by done.
    destruct (decide (0 <= i < Z.of_nat (List.length (options q)))) as [Hi|Hi].
    - rewrite (select_in_range e q i) by done.
      rewrite (select_in_range _ q k) by done.
      simpl. unfold set_answers. simpl. by rewrite Js_set_set.
    - assert (Hsame : select e i = e).
      { unfold select. rewrite Hf, Hq.
        destruct (Z.ltb_spec i 0); [done|].
        destruct (Z.geb_spec i (Z.of_nat (List.length (options q)))); [done|].
        lia. }
      rewrite Hsame. by apply select_in_range. }
  split; [|exact (fun q => Hover q j)].
  destruct (isFinished e) eqn:Hf.
  { assert (Hsame : select e i = e) by (unfold select; by rewrite Hf).
    by rewrite !Hsame. }
  destruct (currentQuestion e) as [q|] eqn:Hq.
  - destruct (decide (0 <= i < Z.of_nat (List.length (options q)))) as [Hi|Hi].
    + by apply (Hover q).
    + assert (Hsame : select e i = e); [|by rewrite !Hsame].
      unfold select. rewrite Hf, Hq.
      destruct (Z.ltb_spec i 0); [done|].
      destruct (Z.geb_spec i (Z.of_nat (List.length (options q)))); [done|].
      lia.
  - assert (Hsame : select e i = e); [|by rewrite !Hsame].
    unfold select. by rewrite Hf, Hq.
Qed.

Lemma select_last_wins_witness :
  let e := new_QuizEngine Scenario.two_questions in
  select (select e 2) 1 = select e 1 /\ select (select e 7) 0 = select e 0.
Proof.
  intros e.
  pose (q1 := new_Question (Scenario.question "q1" 1)).
  split.
  - refine (proj2 (select_last_wins e 2 1) q1 eq_refl _).
    vm_compute. split; [discriminate|reflexivity].
  - refine (proj2 (select_last_wins e 7 0) q1 eq_refl _).
    vm_compute. split; [discriminate|reflexivity].
Defined.

Lemma goTo_set_answers (e : QuizEngine) (a : gmap string Z) (j : Z) :
  goTo (set_answers e a) j = set_answers (goTo e j) a.
Proof. reflexivity. Qed.

(** A selection is read back by [getSelected()], and answers are shared by
    id.  After a valid [select(i)] on a question [q] whose id is not
    [__proto__] (or for which [answers] owns a property), [getSelected()]
    returns [i] on [q] and on every question carrying the id of [q], and
    what it returned before on every question with another id.  For the id
    [__proto__] without an own property nothing was stored:
    [getSelected()] returns [Object.prototype] on [q] and what it returned
    before everywhere. *)
Theorem select_then_getSelected (e : QuizEngine) (i j : Z) (q q' : Question) :
  isFinished e = false ->
  currentQuestion e = Some q ->
  0 <= i < Z.of_nat (List.length (options q)) ->
  currentQuestion (goTo e j) = Some q' ->
  (id q <> "__proto__" \/ is_Some (answers e !! id q) ->
   getSelected (select e i) = Js.number i
   /\ getSelected (goTo (select e i) j)
      = if decide (id q' = id q) then Js.number i else getSelected (goTo e j))
  /\ (id q = "__proto__" -> answers e !! id q = None ->
      getSelected (select e i) = Js.inherited "__proto__"
      /\ getSelected (goTo (select e i) j) = getSelected (goTo e j)).
Proof.
  intros Hf Hq Hi Hq'. rewrite (select_in_range e q i) by done. split.
  - intros Hid. rewrite Js_set_ordinary by done. split.
    + unfold getSelected.
      change (currentQuestion (set_answers e (<[id q:=i]> (answers e))))
        with (currentQuestion e).
      rewrite Hq. cbn [answers set_answers]. unfold Js.get.
      by rewrite lookup_insert_eq.
    + rewrite goTo_set_answers. unfold getSelected.
      change (currentQuestion (set_answers (goTo e j) (<[id q:=i]> (answers e))))
        with (currentQuestion (goTo e j)).
      rewrite Hq'. cbn [answers set_answers].
      change (answers (goTo e j)) with (answers e). unfold Js.get.
      destruct (decide (id q' = id q)) as [->|Hne].
      * by rewrite lookup_insert_eq.
      * by rewrite lookup_insert_ne.
  - intros Hid Hnone. rewrite Js_set_proto by done.
    rewrite set_answers_same. split; [|done].
    unfold getSelected. rewrite Hq. unfold Js.get. rewrite Hnone, Hid.
    reflexivity.
Qed.

Lemma select_then_getSelected_witness :
  let e := new_QuizEngine Scenario.two_questions in
  let p := new_QuizEngine Scenario.proto_id in
  getSelected (select e 2) = Js.number 2
  /\ getSelected (goTo (select e 2) 1) = Js.undefined
  /\ getSelected (goTo (goTo (select e 2) 1) 0) = Js.number 2
  /\ getSelected (select p 2) = Js.inherited "__proto__".
Proof.
  intros e p.
  pose (q1 := new_Question (Scenario.question "q1" 1)).
  pose (q2 := new_Question (Scenario.question "q2" 0)).
  pose (qp := new_Question (Scenario.question "__proto__" 1)).
  assert (Hr : 0 <= 2 < Z.of_nat (List.length (options q1)))
    by (vm_compute; split; [discriminate|reflexivity]).
  assert (Hq1 : id q1 <> "__proto__") by (vm_compute; discriminate).
  refine (conj _ (conj _ (conj _ _))).
  - exact (proj1 (proj1 (select_then_getSelected e 2 0 q1 q1
                           eq_refl eq_refl Hr eq_refl) (or_introl Hq1))).
  - exact (proj2 (proj1 (select_then_getSelected e 2 1 q1 q2
                           eq_refl eq_refl Hr eq_refl) (or_introl Hq1))).
  - exact (proj2 (proj1 (select_then_getSelected e 2 0 q1 q1
                           eq_refl eq_refl Hr eq_refl) (or_introl Hq1))).
  - exact (proj1 (proj2 (select_then_getSelected p 2 0 qp qp
                           eq_refl eq_refl Hr eq_refl) eq_refl eq_refl)).
Defined.

(** ** Time *)

Lemma step_remainingSec (e : QuizEngine) (o : Op) :
  remainingSec (step e o) <= remainingSec e
  /\ Z.min 0 (remainingSec e) <= remainingSec (step e o).
Proof.
  destruct o; cbn [step].
  - unfold next. case_match; simpl; lia.
  - unfold prev. case_match; simpl; lia.
  - simpl. lia.
  - unfold select. repeat case_match; simpl; lia.
  - unfold tick, finish.
    destruct (isFinished e); [lia|].
    destruct (Z.gtb_spec (remainingSec e) 0); repeat case_match; simpl; lia.
  - unfold finish. repeat case_match; simpl; lia.
Qed.

(** The countdown never goes up and never passes below zero: along any
    sequence of operations [remainingSec] does not increase, and it stays
    at or above [min(0, remainingSec)] of the start, so a non-negative
    countdown stays non-negative. *)
Theorem remainingSec_monotone (e : QuizEngine) (ops : list Op) :
  remainingSec (run e ops) <= remainingSec e
  /\ Z.min 0 (remainingSec e) <= remainingSec (run e ops).
Proof.
  revert e. induction ops as [|o ops IH]; intros e; [simpl; lia|].
  rewrite run_cons.
  pose proof (step_remainingSec e o). pose proof (IH (step e o)). lia.
Qed.

Lemma set_remainingSec_same (e : QuizEngine) :
  set_remainingSec e (remainingSec e) = e.
Proof. by destruct e. Qed.

Lemma tick_finished (e : QuizEngine) : isFinished e = true -> tick e = e.
Proof. intros Hf. unfold tick. by rewrite Hf. Qed.

Lemma tick_counting (e : QuizEngine) (r : Z) :
  isFinished e = false -> 1 < r ->
  tick (set_remainingSec e r) = set_remainingSec e (r - 1).
Proof.
  intros Hf Hr. unfold tick. cbn [isFinished remainingSec set_remainingSec].
  rewrite Hf.
  destruct (Z.gtb_spec r 0); [|lia].
  by destruct (Z.leb_spec (r - 1) 0); [lia|].
Qed.

Lemma tick_last_second (e : QuizEngine) :
  isFinished e = false ->
  tick (set_remainingSec e 1) = snd (finish (set_remainingSec e 0)).
Proof.
  intros Hf. unfold tick. cbn [isFinished remainingSec set_remainingSec].
  by rewrite Hf.
Qed.

Lemma ticks_S (k : nat) (e : QuizEngine) : ticks (S k) e = tick (ticks k e).
Proof. reflexivity. Qed.

(** The countdown of an active engine with [n = remainingSec],
    [0 < n <= 2^53] (where the decrement of a JS number is exact): fewer
    than [n] ticks only lower [remainingSec] by their number; the [n]-th
    tick finishes the engine with [remainingSec = 0]; every tick after
    that changes nothing. *)
Theorem countdown (e : QuizEngine) (k : nat) :
  isFinished e = false ->
  0 < remainingSec e <= Js.max_exact ->
  (Z.of_nat k < remainingSec e ->
   ticks k e = set_remainingSec e (remainingSec e - Z.of_nat k))
  /\ (remainingSec e <= Z.of_nat k ->
      ticks k e = snd (finish (set_remainingSec e 0))).
Proof.
  intros Hf [Hpos _].
  induction k as [|k [IHlt IHge]].
  - split; [|lia]. intros _. unfold ticks. simpl.
    rewrite Z.sub_0_r. symmetry. apply set_remainingSec_same.
  - rewrite ticks_S. split.
    + intros Hlt. rewrite IHlt by lia.
      rewrite tick_counting by (done || lia). f_equal. lia.
    + intros Hge.
      destruct (decide (remainingSec e = Z.of_nat (S k))) as [Heq|Hne].
      * rewrite IHlt by lia.
        replace (remainingSec e - Z.of_nat k) with 1 by lia.
        by apply tick_last_second.
      * rewrite IHge by lia. apply tick_finished, finish_isFinished.
Qed.

Lemma countdown_witness :
  let e := set_remainingSec (new_QuizEngine Scenario.two_questions) 3 in
  ticks 2 e = set_remainingSec e 1
  /\ isFinished (ticks 3 e) = true
  /\ ticks 5 e = ticks 3 e.
Proof.
  intros e.
  assert (Hpos : 0 < remainingSec e <= Js.max_exact)
    by (split; [reflexivity|vm_compute; discriminate]).
  assert (H3 : ticks 3 e = snd (finish (set_remainingSec e 0))).
  { refine (proj2 (countdown e 3 eq_refl Hpos) _). vm_compute. discriminate. }
  refine (conj _ (conj _ _)).
  - refine (proj1 (countdown e 2 eq_refl Hpos) _). reflexivity.
  - rewrite H3. apply finish_isFinished.
  - rewrite H3. refine (proj2 (countdown e 5 eq_refl Hpos) _).
    vm_compute. discriminate.
Defined.

(** ** Engines built by the constructor *)

Lemma finished_cached_step (e : QuizEngine) (o : Op) :
  (isFinished e = true -> is_Some (_summary e)) ->
  isFinished (step e o) = true -> is_Some (_summary (step e o)).
Proof.
  destruct e as [t tl pt qs ci a r f s]. cbn [isFinished _summary].
  intros H.
  destruct o; cbn [step];
    unfold next, prev, goTo, select, tick, finish; simpl;
    destruct f; simpl; repeat case_match; simpl; intros; subst;
    try done; try (by apply H); eauto.
Qed.

Lemma finished_cached_run (ops : list Op) (e : QuizEngine) :
  (isFinished e = true -> is_Some (_summary e)) ->
  isFinished (run e ops) = true -> is_Some (_summary (run e ops)).
Proof.
  revert e. induction ops as [|o ops IH]; intros e H; [done|].
  rewrite run_cons. by apply IH, finished_cached_step.
Qed.

(** In an engine built by the constructor the cache mirrors the state:
    after any sequence of operations [_summary] is present exactly when
    [isFinished] is true, and it is then the score of the engine's
    answers. *)
Theorem constructed_cache_mirrors_state (quiz : Quiz) (ops : list Op) :
  let e := run (new_QuizEngine quiz) ops in
  _summary e = if isFinished e then Some (score e) else None.
Proof.
  intros e.
  assert (Hok : cache_ok e).
  { apply cache_ok_run. by apply cache_ok_none. }
  assert (Hfin : isFinished e = true -> is_Some (_summary e)).
  { apply finished_cached_run. discriminate. }
  unfold cache_ok in Hok.
  destruct (isFinished e) eqn:Hf.
  - destruct Hfin as [s Hs]; [done|]. rewrite Hs in *. f_equal. tauto.
  - destruct (_summary e); [|done]. destruct Hok. congruence.
Qed.

Lemma timed_step (e : QuizEngine) (o : Op) :
  (0 <= remainingSec e /\ (isFinished e = false -> 0 < remainingSec e)) ->
  0 <= remainingSec (step e o)
  /\ (isFinished (step e o) = false -> 0 < remainingSec (step e o)).
Proof.
  destruct e as [t tl pt qs ci a r f s].
  cbn [isFinished remainingSec]. intros [Hnn Hact].
  destruct o; cbn [step];
    unfold next, prev, goTo, select, tick, finish; simpl;
    destruct f; simpl; repeat case_match; simpl; split; intros;
    try done; try lia; try (by apply Hact).
  all: pose proof (Hact eq_refl); lia.
Qed.

(** An engine built from a quiz whose time limit is not negative is never
    active without time: after any sequence of operations [remainingSec]
    is at least 0, and while [isFinished] is false it is at least 1. *)
Theorem active_has_time (quiz : Quiz) (ops : list Op) :
  0 <= quiz_timeLimitSec quiz ->
  let e := run (new_QuizEngine quiz) ops in
  0 <= remainingSec e /\ (isFinished e = false -> 0 < remainingSec e).
Proof.
  intros Hnn e. subst e.
  assert (Hinit : 0 <= remainingSec (new_QuizEngine quiz)
                  /\ (isFinished (new_QuizEngine quiz) = false ->
                      0 < remainingSec (new_QuizEngine quiz))).
  { simpl. unfold Js.or_Z.
    destruct (Z.eqb_spec (quiz_timeLimitSec quiz) 0); split; intros; lia. }
  revert Hinit. generalize (new_QuizEngine quiz). clear Hnn.
  induction ops as [|o ops IH]; intros e He; [done|].
  rewrite run_cons. by apply IH, timed_step.
Qed.

Lemma active_has_time_witness :
  let e := run (new_QuizEngine Scenario.one_second) [OpSelect 1; OpTick; OpTick] in
  0 <= remainingSec e /\ (isFinished e = false -> 0 < remainingSec e).
Proof.
  intros e.
  refine (active_has_time Scenario.one_second [OpSelect 1; OpTick; OpTick] _).
  vm_compute. discriminate.
Defined.

(** ** After scoring *)

Lemma finish_caches (e : QuizEngine) :
  _summary (snd (finish e)) = Some (fst (finish e)).
Proof.
  unfold finish. by destruct (isFinished e), (_summary e) as [s|] eqn:Hs.
Qed.

Lemma frozen_step (e : QuizEngine) (o : Op) :
  isFinished e = true -> is_Some (_summary e) ->
  only_currentIndex_differs e (step e o).
Proof.
  intros Hf [s Hs]. destruct o; cbn [step];
    try apply navigation_only_currentIndex; try exact 0;
    unfold only_currentIndex_differs.
  - unfold select. rewrite Hf. by rewrite set_currentIndex_same.
  - rewrite tick_finished by done. by rewrite set_currentIndex_same.
  - unfold finish. rewrite Hf, Hs. simpl. by rewrite set_currentIndex_same.
Qed.

Lemma frozen_run (ops : list Op) (e : QuizEngine) :
  isFinished e = true -> is_Some (_summary e) ->
  only_currentIndex_differs e (run e ops).
Proof.
  revert e. induction ops as [|o ops IH]; intros e Hf Hs.
  - unfold only_currentIndex_differs. simpl. by rewrite set_currentIndex_same.
  - rewrite run_cons.
    pose proof (frozen_step e o Hf Hs) as Hstep.
    destruct (only_currentIndex_differs_fields _ _ Hstep)
      as (_ & _ & _ & _ & _ & _ & Hf' & Hs').
    assert (Hrun : only_currentIndex_differs (step e o) (run (step e o) ops)).
    { apply IH; by rewrite ?Hf', ?Hs'. }
    unfold only_currentIndex_differs in *.
    rewrite Hrun at 1. rewrite Hstep at 1. reflexivity.
Qed.

(** Once [finish()] has run, the session is frozen: whatever operations
    follow, the engine differs from the one [finish()] left only in
    [currentIndex], and a later [finish()] returns the summary of the
    first one. *)
Theorem finished_session_is_frozen (e : QuizEngine) (ops : list Op) :
  let e1 := snd (finish e) in
  let e2 := run e1 ops in
  only_currentIndex_differs e1 e2
  /\ answers e2 = answers e
  /\ remainingSec e2 = remainingSec e
  /\ fst (finish e2) = fst (finish e).
Proof.
  intros e1 e2.
  assert (Hf : isFinished e1 = true) by apply finish_isFinished.
  assert (Hs : _summary e1 = Some (fst (finish e))) by apply finish_caches.
  assert (Hfrozen : only_currentIndex_differs e1 e2).
  { apply frozen_run; [done|]. rewrite Hs. eauto. }
  destruct (only_currentIndex_differs_fields _ _ Hfrozen)
    as (_ & _ & _ & _ & Ha & Hr & Hf' & Hs').
  split; [done|]. rewrite Ha, Hr. repeat split.
  - subst e1. unfold finish. by repeat case_match.
  - subst e1. unfold finish. by repeat case_match.
  - unfold finish at 1. by rewrite Hf', Hs', Hf, Hs.
Qed.

Lemma filter_length_all {A} (P : A -> Prop) `{!forall x, Decision (P x)}
      (l : list A) :
  List.length (filter P l) = List.length l <-> Forall P l.
Proof.
  induction l as [|x l IH]; [by split; [constructor|]|].
  rewrite filter_cons. pose proof (length_filter P l) as Hle.
  destruct (decide (P x)) as [Hx|Hx]; simpl.
  - rewrite Forall_cons. split.
    + intros Hlen. split; [done|]. apply IH. lia.
    + intros [_ Hall]. f_equal. by apply IH.
  - split; [lia|]. rewrite Forall_cons. tauto.
Qed.

(** The summary is consistent with the question list: for every engine a
    caller can obtain, [finish()] reports [0 <= correct <= total];
    [correct = total] exactly when every question is answered correctly;
    and [correct = 0] when nothing has been answered. *)
Theorem summary_bounds (quiz : Quiz) (st : option Snapshot) (ops : list Op) :
  let e := run (fromState quiz st) ops in
  let s := fst (finish e) in
  0 <= correct s <= total s
  /\ (correct s = total s <->
      Forall (answered_correctly (answers e)) (questions e))
  /\ (answers e = ∅ -> correct s = 0).
Proof.
  intros e s.
  assert (Hs : s = score e).
  { apply finish_returns_score, cache_ok_run, cache_ok_fromState. }
  rewrite Hs. clearbody e s. unfold score, length. cbn [correct total].
  rewrite count_correct_number. unfold number_correct.
  pose proof (length_filter (answered_correctly (answers e)) (questions e)).
  split; [lia|]. split.
  - rewrite Nat2Z.inj_iff. apply filter_length_all.
  - intros ->. clear H.
    assert (Hnone : filter (answered_correctly ∅) (questions e) = []); [|by rewrite Hnone].
    induction (questions e) as [|q qs IH]; [done|].
    rewrite filter_cons, IH.
    destruct (decide (answered_correctly ∅ q)) as [Hq|]; [|done].
    unfold answered_correctly in Hq. by rewrite lookup_empty in Hq.
Qed.

Lemma summary_bounds_witness :
  let e := run (new_QuizEngine Scenario.two_questions)
               [OpSelect 1; OpNext; OpSelect 0] in
  correct (fst (finish e)) = total (fst (finish e))
  /\ correct (fst (finish (new_QuizEngine Scenario.two_questions))) = 0.
Proof.
  intros e. split.
  - refine (proj2 (proj1 (proj2 (summary_bounds Scenario.two_questions None
                                   [OpSelect 1; OpNext; OpSelect 0]))) _).
    repeat constructor.
  - exact (proj2 (proj2 (summary_bounds Scenario.two_questions None [])) eq_refl).
Defined.

(** ** Resuming a session *)

Lemma step_timeLimitSec (e : QuizEngine) (o : Op) :
  timeLimitSec (step e o) = timeLimitSec e.
Proof. destruct o; simpl; split_ops; reflexivity. Qed.

Lemma run_config (ops : list Op) (e : QuizEngine) :
  title (run e ops) = title e
  /\ timeLimitSec (run e ops) = timeLimitSec e
  /\ passThreshold (run e ops) = passThreshold e
  /\ questions (run e ops) = questions e.
Proof.
  revert e. induction ops as [|o ops IH]; intros e; [done|].
  rewrite run_cons.
  destruct (IH (step e o)) as (-> & -> & -> & ->).
  by rewrite step_title, step_timeLimitSec, step_passThreshold, step_questions.
Qed.

(** Saving and reloading loses nothing but the cache: for an engine built
    by the constructor and driven by any operations,
    [fromState(quiz, toState())] is that engine with [_summary] reset, and
    [finish()] on the reloaded engine returns the summary [finish()]
    returns on the original. *)
Theorem reload_restores_session (quiz : Quiz) (ops : list Op) :
  let e := run (new_QuizEngine quiz) ops in
  let e' := fromState quiz (Some (toState e)) in
  e' = set_summary e None /\ fst (finish e') = fst (finish e).
Proof.
  intros e e'.
  destruct (run_config ops (new_QuizEngine quiz)) as (Ht & Hl & Hp & Hq).
  fold e in Ht, Hl, Hp, Hq.
  assert (Heq : e' = set_summary e None).
  { subst e'. unfold fromState, toState. cbn [quizTitle].
    rewrite Ht. cbn [title new_QuizEngine].
    rewrite bool_decide_eq_true_2 by done.
    cbn -[new_QuizEngine]. rewrite or_Z_zero.
    unfold set_summary. rewrite Ht, Hl, Hp, Hq. reflexivity. }
  split; [done|]. rewrite Heq.
  assert (Hok : cache_ok e) by (apply cache_ok_run; by apply cache_ok_none).
  rewrite (finish_returns_score e Hok).
  rewrite finish_returns_score by (by apply cache_ok_none).
  by apply score_ext.
Qed.

(** A matching snapshot that carries nothing but the title: [fromState]
    falls back on [quiz.timeLimitSec] itself for [remainingSec], not on
    the constructor's default.  The result is the fresh engine when the
    quiz's limit is not 0; when it is 0 the restored engine has
    [remainingSec = 0] where the fresh one has 300. *)
Theorem fromState_title_only (quiz : Quiz) (st : Snapshot) :
  quizTitle st = Some (quiz_title quiz) ->
  snap_currentIndex st = None ->
  snap_answers st = None ->
  snap_remainingSec st = None ->
  snap_isFinished st = None ->
  fromState quiz (Some st)
  = set_remainingSec (new_QuizEngine quiz) (quiz_timeLimitSec quiz)
  /\ (quiz_timeLimitSec quiz <> 0 ->
      fromState quiz (Some st) = new_QuizEngine quiz)
  /\ (quiz_timeLimitSec quiz = 0 ->
      remainingSec (fromState quiz (Some st)) = 0
      /\ remainingSec (new_QuizEngine quiz) = 300).
Proof.
  intros Ht Hc Ha Hr Hf.
  assert (Heq : fromState quiz (Some st)
                = set_remainingSec (new_QuizEngine quiz) (quiz_timeLimitSec quiz)).
  { unfold fromState. rewrite Ht, Hc, Ha, Hr, Hf.
    by rewrite bool_decide_eq_true_2. }
  rewrite Heq. split; [done|]. split.
  - intros Hne. unfold set_remainingSec, new_QuizEngine, Js.or_Z. simpl.
    by destruct (Z.eqb_spec (quiz_timeLimitSec quiz) 0).
  - intros Hz. simpl. unfold Js.or_Z. by rewrite Hz.
Qed.

Lemma fromState_title_only_witness :
  let bare t := {| quizTitle := Some t; snap_currentIndex := None;
                   snap_answers := None; snap_remainingSec := None;
                   snap_isFinished := None |} in
  fromState Scenario.two_questions (Some (bare "quiz"))
  = new_QuizEngine Scenario.two_questions
  /\ remainingSec (fromState Scenario.no_questions (Some (bare "empty"))) = 0.
Proof.
  intros bare. split.
  - refine (proj1 (proj2 (fromState_title_only Scenario.two_questions
                            (bare "quiz") eq_refl eq_refl eq_refl eq_refl eq_refl)) _).
    vm_compute. discriminate.
  - exact (proj1 (proj2 (proj2 (fromState_title_only Scenario.no_questions
                            (bare "empty") eq_refl eq_refl eq_refl eq_refl eq_refl))
                   eq_refl)).
Defined.

(** * Properties of the page *)

(** ** Navigation buttons *)

(** [renderNav()] never enables Next and Finish together, enables neither
    while no integer is recorded for the current question, and, when the
    cursor is in range and one is recorded, enables exactly one of them:
    Finish on the last question, Next elsewhere.  Prev is disabled exactly
    on the first question. *)
Theorem renderNav_exclusive (e : QuizEngine) :
  let b := renderNav e in
  btnNext_disabled b || btnFinish_disabled b = true
  /\ (Js.isInteger (getSelected e) = false ->
      btnNext_disabled b = true /\ btnFinish_disabled b = true)
  /\ (Js.isInteger (getSelected e) = true -> cursor_in_range e ->
      btnNext_disabled b = negb (btnFinish_disabled b)
      /\ (btnFinish_disabled b = false <-> currentIndex e = length e - 1))
  /\ (btnPrev_disabled b = true <-> currentIndex e = 0).
Proof.
  unfold renderNav. cbn [btnPrev_disabled btnNext_disabled btnFinish_disabled].
  refine (conj _ (conj _ (conj _ _))).
  - destruct (Z.ltb_spec (currentIndex e) (length e - 1)),
      (Z.eqb_spec (currentIndex e) (length e - 1)),
      (Js.isInteger (getSelected e)); simpl; (done || lia).
  - intros ->. by rewrite !andb_false_r.
  - intros -> [Hlo Hhi]. rewrite !andb_true_r.
    destruct (Z.ltb_spec (currentIndex e) (length e - 1)),
      (Z.eqb_spec (currentIndex e) (length e - 1)); simpl;
      (split; [done || lia|split; (done || lia)]).
  - apply Z.eqb_eq.
Qed.

Lemma renderNav_exclusive_witness :
  let e := select (new_QuizEngine Scenario.two_questions) 1 in
  btnNext_disabled (renderNav e) = false
  /\ btnFinish_disabled (renderNav e) = true
  /\ btnFinish_disabled (renderNav (select (next e) 0)) = false
  /\ btnNext_disabled (renderNav (next e)) = true.
Proof.
  intros e.
  assert (He : cursor_in_range e) by (vm_compute; split; [discriminate|reflexivity]).
  assert (Hn : cursor_in_range (select (next e) 0))
    by (vm_compute; split; [discriminate|reflexivity]).
  pose proof (proj1 (proj2 (proj2 (renderNav_exclusive e))) eq_refl He)
    as [Hx Hy].
  pose proof (proj1 (proj2 (proj2 (renderNav_exclusive (select (next e) 0))))
                eq_refl Hn) as [_ Hz].
  refine (conj _ (conj _ (conj _ _))).
  - rewrite Hx. reflexivity.
  - reflexivity.
  - apply Hz. reflexivity.
  - exact (proj1 (proj1 (proj2 (renderNav_exclusive (next e))) eq_refl)).
Defined.



(** ** The timer and the Finish button *)

Lemma fromState_length_questions (quiz : Quiz) (st : option Snapshot) :
  questions (fromState quiz st) = questions (new_QuizEngine quiz).
Proof.
  unfold fromState. destruct st as [s|]; [|done]. by destruct (negb _).
Qed.

Lemma fromState_passThreshold (quiz : Quiz) (st : option Snapshot) :
  passThreshold (fromState quiz st) = passThreshold (new_QuizEngine quiz).
Proof.
  unfold fromState. destruct st as [s|]; [|done]. by destruct (negb _).
Qed.

Lemma tick_score (e : QuizEngine) : score (tick e) = score e.
Proof.
  apply score_ext; unfold tick, finish; repeat case_match; reflexivity.
Qed.

Lemma tick_cache_ok (e : QuizEngine) : cache_ok e -> cache_ok (tick e).
Proof. apply (cache_ok_step e OpTick). Qed.

Lemma tick_active (e : QuizEngine) :
  isFinished (tick e) = false ->
  tick e = set_remainingSec e (remainingSec e - 1) /\ 0 < remainingSec e - 1.
Proof.
  unfold tick. destruct (isFinished e) eqn:Hf; [congruence|].
  destruct (Z.gtb_spec (remainingSec e) 0).
  - cbn [remainingSec set_remainingSec].
    destruct (Z.leb_spec (remainingSec e - 1) 0).
    + rewrite finish_isFinished. discriminate.
    + intros _. split; [done|lia].
  - rewrite finish_isFinished. discriminate.
Qed.

(** The interval callback makes up for [tick()] not scoring a finished
    engine.  For every engine a caller can obtain, after the callback the
    timer is stopped exactly when the engine is finished; the saved
    snapshot records that flag; when stopped, the rendered result is the
    score of the recorded answers and it is cached in the engine (also for
    a session restored as finished, which has no cache); when not
    stopped, nothing is rendered as result and, for
    [remainingSec <= 2^53] (where the decrement of a JS number is exact),
    exactly one second has been taken off, with time left. *)
Theorem on_interval_spec (quiz : Quiz) (st : option Snapshot) (ops : list Op) :
  let e := run (init_engine quiz st) ops in
  let h := on_interval e in
  h_stopped h = isFinished (h_engine h)
  /\ snap_isFinished (h_saved h) = Some (h_stopped h)
  /\ (h_stopped h = true ->
      h_result h = Some (score e)
      /\ _summary (h_engine h) = Some (score e)
      /\ answers (h_engine h) = answers e)
  /\ (h_stopped h = false ->
      h_result h = None
      /\ (remainingSec e <= Js.max_exact ->
          h_engine h = set_remainingSec e (remainingSec e - 1)
          /\ 0 < remainingSec e - 1)).
Proof.
  intros e h.
  assert (Hok : cache_ok (tick e)).
  { apply tick_cache_ok. subst e. apply cache_ok_run.
    destruct st; [apply cache_ok_fromState|by apply cache_ok_none]. }
  subst h. unfold on_interval.
  destruct (isFinished (tick e)) eqn:Hf;
    cbn [h_engine h_saved h_stopped h_result toState snap_isFinished].
  - rewrite finish_isFinished, Hf, finish_caches.
    rewrite (finish_returns_score _ Hok), tick_score.
    repeat split; try discriminate.
    unfold tick, finish; repeat case_match; reflexivity.
  - rewrite Hf. repeat split; try discriminate; intros; by apply tick_active.
Qed.

Lemma on_interval_spec_witness :
  let e := fromState Scenario.two_questions (Some Scenario.finished_snapshot) in
  _summary e = None
  /\ h_result (on_interval e)
     = Some {| correct := 1; total := 2; percent := 0.5%float; passed := true |}
  /\ h_engine (on_interval (new_QuizEngine Scenario.two_questions))
     = set_remainingSec (new_QuizEngine Scenario.two_questions) 59.
Proof.
  intros e. refine (conj eq_refl (conj _ _)).
  - exact (proj1 (proj1 (proj2 (proj2
             (on_interval_spec Scenario.two_questions
                (Some Scenario.finished_snapshot) []))) eq_refl)).
  - refine (proj1 (proj2 (proj2 (proj2 (proj2
             (on_interval_spec Scenario.two_questions None []))) eq_refl) _)).
    vm_compute. discriminate.
Defined.

(** Finishing survives a reload.  After the Finish handler has run on an
    engine built by the constructor, the engine started from the saved
    snapshot is finished; the first interval callback stops the timer and
    renders the very summary the Finish handler rendered, and takes no
    second off the clock. *)
Theorem finish_survives_reload (quiz : Quiz) (ops : list Op) :
  let e := run (new_QuizEngine quiz) ops in
  let h := on_finish_click e in
  let e' := init_engine quiz (Some (h_saved h)) in
  let h' := on_interval e' in
  isFinished e' = true
  /\ h_stopped h' = true
  /\ h_result h' = h_result h
  /\ remainingSec (h_engine h') = remainingSec e
  /\ answers (h_engine h') = answers e.
Proof.
  intros e h e' h'.
  destruct (run_config ops (new_QuizEngine quiz)) as (Ht & Hl & Hp & Hq).
  fold e in Ht, Hl, Hp, Hq.
  assert (Hok : cache_ok e) by (apply cache_ok_run; by apply cache_ok_none).
  set (e1 := snd (finish e)).
  assert (Hf1 : isFinished e1 = true) by apply finish_isFinished.
  assert (Ht1 : title e1 = quiz_title quiz).
  { subst e1. unfold finish. repeat case_match; simpl; by rewrite Ht. }
  assert (Ha1 : answers e1 = answers e)
    by (subst e1; unfold finish; by repeat case_match).
  assert (Hr1 : remainingSec e1 = remainingSec e)
    by (subst e1; unfold finish; by repeat case_match).
  destruct (fromState_toState quiz e1 Ht1) as (_ & Ha & Hr & Hf).
  change (fromState quiz (Some (toState e1))) with e' in Ha, Hr, Hf.
  rewrite Hf1 in Hf.
  assert (Htick : tick e' = e') by (by apply tick_finished).
  assert (Hs' : _summary e' = None) by apply fromState_summary.
  assert (Hscore : score e' = score e).
  { apply score_ext.
    - rewrite Hq. subst e'. unfold init_engine. by rewrite fromState_length_questions.
    - by rewrite Ha, Ha1.
    - rewrite Hp. subst e'. unfold init_engine. by rewrite fromState_passThreshold. }
  assert (Hfin : finish e' = (score e, set_summary (set_isFinished e' true)
                                         (Some (score e)))).
  { unfold finish. by rewrite Hf, Hs', Hscore. }
  subst h'. unfold on_interval. rewrite Htick, Hf, Hfin.
  cbn [h_stopped h_result h_engine fst snd].
  subst h. unfold on_finish_click. cbn [h_result].
  rewrite (finish_returns_score e Hok).
  cbn [remainingSec answers set_summary set_isFinished].
  by rewrite Hr, Hr1, Ha, Ha1.
Qed.

(** ** Answering in order *)

(** Handlers that neither move the cursor nor touch the answers. *)
Lemma finish_same_session (e : QuizEngine) :
  questions (snd (finish e)) = questions e
  /\ answers (snd (finish e)) = answers e
  /\ currentIndex (snd (finish e)) = currentIndex e.
Proof. unfold finish. by repeat case_match. Qed.

Lemma tick_same_session (e : QuizEngine) :
  questions (tick e) = questions e
  /\ answers (tick e) = answers e
  /\ currentIndex (tick e) = currentIndex e.
Proof. unfold tick, finish. by repeat case_match. Qed.

Lemma answered_before_cursor_same (e e' : QuizEngine) :
  questions e' = questions e ->
  answers e' = answers e ->
  currentIndex e' <= currentIndex e ->
  answered_before_cursor e -> answered_before_cursor e'.
Proof.
  unfold answered_before_cursor. intros Hq Ha Hc H i q Hi Hat.
  rewrite Ha. rewrite Hq in Hat. apply (H i q); [lia|done].
Qed.

Lemma current_answered (e : QuizEngine) (q : Question) :
  Js.isInteger (getSelected e) = true ->
  at_index (questions e) (currentIndex e) = Some q ->
  is_Some (answers e !! id q).
Proof.
  unfold getSelected, currentQuestion. intros Hsel Hat.
  rewrite Hat in Hsel. by apply Js_isInteger_get.
Qed.

Lemma answered_before_cursor_step (e : QuizEngine) (ev : UiEvent) :
  answered_before_cursor e -> answered_before_cursor (ui_step e ev).
Proof.
  intros H. destruct ev; cbn [ui_step].
  - destruct (btnPrev_disabled (renderNav e)); [done|].
    unfold prev. case_match; [|done].
    apply (answered_before_cursor_same e); simpl; (done || lia).
  - destruct (btnNext_disabled (renderNav e)) eqn:Hdis; [done|].
    unfold renderNav in Hdis. cbn [btnNext_disabled] in Hdis.
    apply negb_false_iff, andb_true_iff in Hdis as [Hlt Hhas].
    unfold next. rewrite Hlt.
    intros i q Hi Hat. cbn [currentIndex set_currentIndex answers questions] in *.
    destruct (decide (i = currentIndex e)) as [->|Hne].
    + by apply current_answered.
    + apply (H i q); [lia|done].
  - unfold select. repeat case_match; try done.
    intros i q' Hi Hat. cbn [currentIndex set_answers answers questions] in *.
    apply Js_set_is_Some. by apply (H i q').
  - unfold on_interval.
    destruct (tick_same_session e) as (Hq & Ha & Hc).
    destruct (finish_same_session (tick e)) as (Hq' & Ha' & Hc').
    case_match; cbn [h_engine];
      apply (answered_before_cursor_same e); first [done | congruence | lia].
  - destruct (finish_same_session e) as (Hq & Ha & Hc).
    case_match; [done|]. cbn [on_finish_click h_engine].
    apply (answered_before_cursor_same e); first [done | congruence | lia].
  - destruct (finish_same_session e) as (Hq & Ha & Hc).
    unfold on_review_click. case_match; [|done].
    apply (answered_before_cursor_same e); first [done | congruence | lia].
Qed.

Lemma answered_before_cursor_run (evs : list UiEvent) (e : QuizEngine) :
  answered_before_cursor e -> answered_before_cursor (ui_run e evs).
Proof.
  revert e. induction evs as [|ev evs IH]; intros e H; [done|].
  apply (IH (ui_step e ev)), answered_before_cursor_step, H.
Qed.

(** On the page nobody skips a question.  Starting from a fresh engine and
    whatever the user and the timer do, every question before the cursor
    has a recorded answer; so whenever the Finish button is enabled, every
    question of the quiz has one. *)
Theorem finish_enabled_all_answered (quiz : Quiz) (evs : list UiEvent) :
  let e := ui_run (new_QuizEngine quiz) evs in
  answered_before_cursor e
  /\ (btnFinish_disabled (renderNav e) = false ->
      Forall (fun q => is_Some (answers e !! id q)) (questions e)).
Proof.
  intros e.
  assert (Hinv : answered_before_cursor e).
  { apply answered_before_cursor_run. intros i q Hi. simpl in Hi. lia. }
  split; [done|]. intros Hen.
  unfold renderNav in Hen. cbn [btnFinish_disabled] in Hen.
  apply negb_false_iff, andb_true_iff in Hen as [Hlast Hhas].
  apply Z.eqb_eq in Hlast.
  assert (Hsel : Js.isInteger (getSelected e) = true) by done.
  clearbody e. apply Forall_lookup. intros n q Hn.
  pose proof (lookup_lt_Some _ _ _ Hn) as Hlt.
  assert (Hat : at_index (questions e) (Z.of_nat n) = Some q).
  { unfold at_index. destruct (Z.ltb_spec (Z.of_nat n) 0); [lia|].
    by rewrite Nat2Z.id. }
  unfold length in Hlast.
  destruct (decide (Z.of_nat n = currentIndex e)) as [Heq|Hne].
  - apply current_answered; [done|]. by rewrite <- Heq.
  - apply (Hinv (Z.of_nat n) q); [lia|done].
Qed.

Lemma finish_enabled_all_answered_witness :
  let e := ui_run (new_QuizEngine Scenario.two_questions)
                  [ClickNext; ChangeOption 1; ClickNext; Interval; ChangeOption 0] in
  currentIndex e = 1
  /\ Forall (fun q => is_Some (answers e !! id q)) (questions e).
Proof.
  intros e. split; [reflexivity|].
  exact (proj2 (finish_enabled_all_answered Scenario.two_questions
                  [ClickNext; ChangeOption 1; ClickNext; Interval; ChangeOption 0])
               eq_refl).
Defined.

(** ** The timer text *)

Lemma string_app_length (a b : string) :
  String.length (a +:+ b) = (String.length a + String.length b)%nat.
Proof. induction a as [|c a IH]; simpl; [done|]. by rewrite IH. Qed.

Lemma string_app_inj (a a' b b' : string) :
  String.length a = String.length a' ->
  a +:+ b = a' +:+ b' -> a = a' /\ b = b'.
Proof.
  revert a'. induction a as [|c a IH]; intros [|c' a'] Hlen Heq;
    try discriminate; simpl in *; [done|].
  injection Heq as -> Heq. destruct (IH a') as [-> ->]; [lia|done|done].
Qed.

Lemma below_hundred (P : Z -> Prop) :
  (forall k : nat, (k < 100)%nat -> P (Z.of_nat k)) ->
  forall n : Z, 0 <= n < 100 -> P n.
Proof.
  intros H n Hn. rewrite <- (Z2Nat.id n) by lia. apply H. lia.
Qed.

(** Below 100, [String(n).padStart(2, "0")] has two characters and
    determines [n]. *)
Lemma two_digits_length (n : Z) :
  0 <= n < 100 ->
  String.length (padStart 2 "0"%char (String_of_Z n)) = 2%nat.
Proof.
  revert n. apply below_hundred. intros k Hk.
  assert (Hall : forallb (fun k => Nat.eqb (String.length
                    (padStart 2 "0"%char (String_of_Z (Z.of_nat k)))) 2)
                   (seq 0 100) = true) by (vm_compute; reflexivity).
  rewrite forallb_forall in Hall.
  apply Nat.eqb_eq, Hall, in_seq. lia.
Qed.

Lemma two_digits_inj (n m : Z) :
  0 <= n < 100 -> 0 <= m < 100 ->
  padStart 2 "0"%char (String_of_Z n) = padStart 2 "0"%char (String_of_Z m) ->
  n = m.
Proof.
  intros Hn. revert m. revert n Hn.
  apply (below_hundred (fun n => forall m, 0 <= m < 100 -> _ -> n = m)).
  intros k Hk.
  apply (below_hundred (fun m => _ -> Z.of_nat k = m)).
  intros j Hj Heq.
  assert (Hall : forallb (fun k => forallb (fun j =>
                    implb (String.eqb
                             (padStart 2 "0"%char (String_of_Z (Z.of_nat k)))
                             (padStart 2 "0"%char (String_of_Z (Z.of_nat j))))
                          (Nat.eqb k j)) (seq 0 100)) (seq 0 100) = true)
    by (vm_compute; reflexivity).
  rewrite forallb_forall in Hall.
  assert (Hk' : In k (seq 0 100)) by (apply in_seq; lia).
  specialize (Hall k Hk'). rewrite forallb_forall in Hall.
  assert (Hj' : In j (seq 0 100)) by (apply in_seq; lia).
  specialize (Hall j Hj').
  apply String.eqb_eq in Heq. rewrite Heq in Hall. simpl in Hall.
  apply Nat.eqb_eq in Hall. by subst.
Qed.

(** Below 100, [String(n).padStart(2, "0")] is the tens digit of [n]
    followed by its units digit. *)
Lemma two_digits_text (n : Z) :
  0 <= n < 100 ->
  padStart 2 "0"%char (String_of_Z n)
  = String (decimal_digit (n / 10))
      (String (decimal_digit (n mod 10)) EmptyString).
Proof.
  revert n. apply below_hundred. intros k Hk.
  assert (Hall : forallb (fun k => String.eqb
                    (padStart 2 "0"%char (String_of_Z (Z.of_nat k)))
                    (String (decimal_digit (Z.of_nat k / 10))
                       (String (decimal_digit (Z.of_nat k mod 10)) EmptyString)))
                   (seq 0 100) = true) by (vm_compute; reflexivity).
  rewrite forallb_forall in Hall.
  apply String.eqb_eq, Hall, in_seq. lia.
Qed.

(** Under 100 minutes the timer reads as [mm:ss].  For
    [0 <= remainingSec < 6000] the text is, in this order, the tens and
    the units digit of the minutes [remainingSec / 60], a colon, and the
    tens and the units digit of the seconds [remainingSec mod 60]; so it
    has five characters with the colon in the middle, and two engines show
    the same text only if they have the same [remainingSec]. *)
Theorem renderTimer_mm_ss (e e' : QuizEngine) :
  0 <= remainingSec e < 6000 ->
  0 <= remainingSec e' < 6000 ->
  renderTimer e
  = String (decimal_digit (remainingSec e / 60 / 10))
      (String (decimal_digit ((remainingSec e / 60) mod 10))
         (String ":"%char
            (String (decimal_digit ((remainingSec e mod 60) / 10))
               (String (decimal_digit ((remainingSec e mod 60) mod 10))
                  EmptyString))))
  /\ String.length (renderTimer e) = 5%nat
  /\ String.get 2 (renderTimer e) = Some ":"%char
  /\ (renderTimer e = renderTimer e' -> remainingSec e = remainingSec e').
Proof.
  intros Hr Hr'.
  assert (Hm : 0 <= remainingSec e / 60 < 100) by (Z.div_mod_to_equations; lia).
  assert (Hs : 0 <= remainingSec e mod 60 < 100) by (Z.div_mod_to_equations; lia).
  assert (Hm' : 0 <= remainingSec e' / 60 < 100) by (Z.div_mod_to_equations; lia).
  assert (Hs' : 0 <= remainingSec e' mod 60 < 100) by (Z.div_mod_to_equations; lia).
  assert (Htext : renderTimer e
                  = String (decimal_digit (remainingSec e / 60 / 10))
                      (String (decimal_digit ((remainingSec e / 60) mod 10))
                         (String ":"%char
                            (String (decimal_digit ((remainingSec e mod 60) / 10))
                               (String (decimal_digit ((remainingSec e mod 60) mod 10))
                                  EmptyString))))).
  { unfold renderTimer. rewrite (Z.rem_mod_nonneg (remainingSec e) 60) by lia.
    by rewrite (two_digits_text _ Hm), (two_digits_text _ Hs). }
  refine (conj Htext (conj _ (conj _ _))).
  - by rewrite Htext.
  - by rewrite Htext.
  - unfold renderTimer.
    rewrite (Z.rem_mod_nonneg (remainingSec e) 60),
      (Z.rem_mod_nonneg (remainingSec e') 60) by lia.
    pose proof (two_digits_length _ Hm) as Lm.
    pose proof (two_digits_length _ Hm') as Lm'.
    intros Heq.
    apply string_app_inj in Heq as [Hmin Hrest]; [|congruence].
    apply (string_app_inj ":" ":") in Hrest as [_ Hsec]; [|done].
    apply two_digits_inj in Hmin; [|done..].
    apply two_digits_inj in Hsec; [|done..].
    Z.div_mod_to_equations. lia.
Qed.

Lemma renderTimer_mm_ss_witness :
  let e := set_remainingSec (new_QuizEngine Scenario.two_questions) 754 in
  renderTimer e = "12:34"
  /\ String.length (renderTimer (tick e)) = 5%nat.
Proof.
  intros e.
  assert (He : 0 <= remainingSec e < 6000)
    by (vm_compute; split; [discriminate|reflexivity]).
  assert (Ht : 0 <= remainingSec (tick e) < 6000)
    by (vm_compute; split; [discriminate|reflexivity]).
  split.
  - exact (proj1 (renderTimer_mm_ss e e He He)).
  - exact (proj1 (proj2 (renderTimer_mm_ss (tick e) e Ht He))).
Defined.

(** ** Review *)

Lemma review_rows_lookup (a : gmap string Z) (q : Question) (n : nat) (r : RowClasses) :
  review_rows a q !! n = Some r ->
  r = review_row a q (Z.of_nat n) /\ (n < List.length (options q))%nat.
Proof.
  unfold review_rows. rewrite list_lookup_imap_Some.
  intros (o & Ho & ->). split; [done|]. by apply lookup_lt_Some in Ho.
Qed.

(** The review agrees with the score.  A question that [finish()] counts
    as correct shows no row marked incorrect; a question whose recorded
    answer is a valid option other than the correct one shows exactly that
    option marked incorrect; an unanswered question shows none; and no row
    is ever marked both correct and incorrect. *)
Theorem review_agrees_with_score (a : gmap string Z) (q : Question) :
  List.length (review_rows a q) = List.length (options q)
  /\ Forall (fun r => class_correct r && class_incorrect r = false)
            (review_rows a q)
  /\ (isCorrect q (a !! id q) = true \/ a !! id q = None ->
      Forall (fun r => class_incorrect r = false) (review_rows a q))
  /\ (forall chosen : Z,
        a !! id q = Some chosen ->
        0 <= chosen < Z.of_nat (List.length (options q)) ->
        isCorrect q (a !! id q) = false ->
        forall (n : nat) (r : RowClasses),
          review_rows a q !! n = Some r ->
          (class_incorrect r = true <-> Z.of_nat n = chosen)
          /\ is_Some (review_rows a q !! Z.to_nat chosen)).
Proof.
  refine (conj _ (conj _ (conj _ _))).
  - unfold review_rows. apply length_imap.
  - apply Forall_lookup. intros n r Hr.
    apply review_rows_lookup in Hr as [-> _]. unfold review_row. simpl.
    destruct (a !! id q); [|by rewrite andb_false_r].
    destruct (Z.of_nat n =? correctIndex q); simpl; [|done].
    by rewrite andb_false_r.
  - intros Hok. apply Forall_lookup. intros n r Hr.
    apply review_rows_lookup in Hr as [-> _]. unfold review_row. simpl.
    destruct Hok as [Hok| ->]; [|done].
    unfold isCorrect in Hok. destruct (a !! id q) as [c|]; [|done].
    apply Z.eqb_eq in Hok. subst c.
    destruct (Z.eqb_spec (correctIndex q) (Z.of_nat n)) as [->|]; [|done].
    by rewrite Z.eqb_refl.
  - intros chosen Ha Hrange Hwrong n r Hr.
    apply review_rows_lookup in Hr as [-> Hn]. unfold review_row. simpl.
    rewrite Ha in *. simpl in Hwrong. apply Z.eqb_neq in Hwrong. split.
    + destruct (Z.eqb_spec chosen (Z.of_nat n)) as [<-|Hne]; simpl.
      * destruct (Z.eqb_spec chosen (correctIndex q)); [done|]. by split.
      * split; [discriminate|]. intros Heq. by rewrite Heq in Hne.
    + apply lookup_lt_is_Some. unfold review_rows.
      rewrite length_imap. lia.
Qed.

Lemma review_agrees_with_score_witness :
  let q := new_Question (Scenario.question "q1" 1) in
  review_rows {[ "q1" := 1 ]} q
  = [ {| class_correct := false; class_incorrect := false |};
      {| class_correct := true; class_incorrect := false |};
      {| class_correct := false; class_incorrect := false |} ]
  /\ exists r : RowClasses,
       review_rows {[ "q1" := 2 ]} q !! 2%nat = Some r
       /\ class_incorrect r = true.
Proof.
  intros q. split; [reflexivity|].
  eexists. split; [reflexivity|].
  refine (proj2 (proj1 (proj2 (proj2 (proj2
            (review_agrees_with_score {[ "q1" := 2 ]} q)))
            2 eq_refl _ eq_refl 2%nat _ eq_refl)) eq_refl).
  vm_compute. split; [discriminate|reflexivity].
Defined.
